(** * Hosted plugin instance manager

    A shallow embedding of
    [packages/plugin-ext/src/hosted/node/hosted-plugin-manager.ts]
    (classes [AbstractHostedPluginManager], [NodeHostedPluginRunner] and
    [ElectronNodeHostedPluginRunner]) together with the properties its
    specification states about it.

    Conventions of the model

    - A promise is represented by the state it has reached once the events
      listed in the world's [inbox] have been delivered: [Fulfilled],
      [Rejected] or still [Pending].
    - Everything the manager asks of Node or of the operating system is
      appended, in order, to the world's [effects].
    - What the outside world answers (the file system, whether a port can be
      bound, the pid given to a child, the process table) is read from an
      [Os] record; what it delivers asynchronously after the child has been
      spawned (stdout chunks, exit and error events, timers, HTTP responses)
      is read from the [inbox].
    - Calls are not overlapped: a method runs until its promise settles or
      the inbox is exhausted.
    - Strings are sequences of 8-bit code units; ports and pids are
      integers. *)

From Stdlib Require Import ZArith Lia Ascii String.
From stdpp Require Import gmap strings list fin_maps pretty.

Set Warnings "-register-all".
Open Scope Z_scope.
Open Scope string_scope.

(* ===================================================================== *)
(** ** JavaScript values that cross the manager's interface *)
(* ===================================================================== *)

(** What a [throw] or a [reject] carries: an [Error] object with its message
    or, for [reject('Timeout.')], a bare string. *)
Inductive Reason :=
| ErrorObj (message : string)
| StrVal (s : string).

(** The state a promise has reached. *)
Inductive Settle (A : Type) :=
| Fulfilled (a : A)
| Rejected (r : Reason)
| Pending.
Arguments Fulfilled {A} a.
Arguments Rejected {A} r.
Arguments Pending {A}.

(** The completion of a synchronous call. *)
Inductive Completion (A : Type) :=
| Normal (a : A)
| Throw (r : Reason).
Arguments Normal {A} a.
Arguments Throw {A} r.

(** The messages of the errors the manager raises, under the names the
    specification gives them. *)
Definition AlreadyRunningError : Reason :=
  ErrorObj "Hosted plugin instance is already running.".
Definition NotRunningError : Reason :=
  ErrorObj "Hosted plugin instance is not running.".
Definition InvalidPortError : Reason :=
  ErrorObj "Port value is incorrect.".
Definition PortInUseError (port : Z) : Reason :=
  ErrorObj ("Port " +:+ pretty port +:+ " is already in use.").
Definition StartupTimeoutError : Reason :=
  StrVal "Timeout.".
Definition UnreachableEndpointError (uri : string) : Reason :=
  ErrorObj ("Cannot reach " +:+ uri).
Definition UnsupportedLocationError (uri : string) : Reason :=
  ErrorObj ("Not supported plugin location: " +:+ uri).

(* ===================================================================== *)
(** ** THEIA_INSTANCE_REGEX *)
(* ===================================================================== *)

Definition HOSTED_INSTANCE_START_TIMEOUT_MS : Z := 30000.

(** [.] matches every code unit but a line terminator; of those, line feed
    and carriage return are in the 8-bit range. *)
Definition is_line_terminator (c : ascii) : bool :=
  (Ascii.eqb c "010"%char || Ascii.eqb c "013"%char)%bool.

(** [strip_prefix p s] is the rest of [s] after the literal [p]. *)
Fixpoint strip_prefix (p s : string) : option string :=
  match p, s with
  | EmptyString, _ => Some s
  | String a p', String b s' =>
      if Ascii.eqb a b then strip_prefix p' s' else None
  | String _ _, EmptyString => None
  end.

(** The tail of the pattern, from the capture group on: the group is a
    greedy run of non-terminators, so the longest one that is followed by
    the literal dot, space, brackets is taken; the closing wildcard always
    matches. *)
Fixpoint match_group (s : string) : option string :=
  let here := if strip_prefix ". []" s is Some _ then Some "" else None in
  match s with
  | EmptyString => here
  | String c r =>
      if is_line_terminator c then here
      else match match_group r with
           | Some g => Some (String c g)
           | None => here
           end
  end.

(** The whole pattern tried at one start position: the leading wildcard is
    greedy and gives back one code unit at a time. *)
Fixpoint match_here (s : string) : option string :=
  let here :=
    match strip_prefix "Theia app listening on " s with
    | Some r => match_group r
    | None => None
    end in
  match s with
  | EmptyString => here
  | String c r =>
      if is_line_terminator c then here
      else match match_here r with
           | Some g => Some g
           | None => here
           end
  end.

(** [THEIA_INSTANCE_REGEX.exec(line)], reduced to what the caller reads:
    [None] for no match, [Some match[1]] otherwise. The pattern is not
    anchored, so start positions are tried from the left. *)
Fixpoint THEIA_INSTANCE_REGEX_exec (line : string) : option string :=
  match match_here line with
  | Some g => Some g
  | None =>
      match line with
      | EmptyString => None
      | String _ r => THEIA_INSTANCE_REGEX_exec r
      end
  end.

(* ===================================================================== *)
(** ** Plugin manifests *)
(* ===================================================================== *)

(** The value [require] gives for a [.json] file. An object is the list of
    its properties. *)
Inductive json :=
| JNull
| JBool (b : bool)
| JNum (n : Z)
| JStr (s : string)
| JArr (items : list json)
| JObj (props : list (string * json)).

(** A file that [fs.existsSync] sees: its text parses as JSON or does not. *)
Inductive File :=
| JsonText (v : json)
| Unparsable.

Fixpoint assoc (k : string) (props : list (string * json)) : option json :=
  match props with
  | [] => None
  | (k', v) :: rest => if String.eqb k k' then Some v else assoc k rest
  end.

(** JavaScript truthiness, with [None] for [undefined]. *)
Definition truthy (v : option json) : bool :=
  match v with
  | None => false
  | Some JNull => false
  | Some (JBool b) => b
  | Some (JNum n) => negb (Z.eqb n 0)
  | Some (JStr s) => negb (String.eqb s "")
  | Some (JArr _) => true
  | Some (JObj _) => true
  end.

(** [v[k]] for one of the keys the manager reads (['theiaPlugin'],
    ['frontend'], ['backend']): reading a property of [null] or [undefined]
    throws a [TypeError]; numbers, booleans, strings and arrays have no
    property of these names. *)
Definition get_prop (v : option json) (k : string) : Completion (option json) :=
  match v with
  | None => Throw (ErrorObj ("Cannot read property '" +:+ k +:+ "' of undefined"))
  | Some JNull => Throw (ErrorObj ("Cannot read property '" +:+ k +:+ "' of null"))
  | Some (JObj props) => Normal (assoc k props)
  | Some _ => Normal None
  end.


(* ===================================================================== *)
(** ** The platform the module is written against *)
(* ===================================================================== *)

(** [URI] of [@theia/core] and the built-in [Number] are used, not defined,
    by the module: the model takes them as an interface. [uri_path u] is
    [u.path.toString()]; [Number] gives [None] for [NaN]. *)
Class Platform := {
  URI : Type;
  new_URI : string -> URI;
  uri_scheme : URI -> string;
  uri_path : URI -> string;
  uri_toString : URI -> string;
  Number : string -> option Z;
}.

(** One row of what [ps-tree] hands to its callback. *)
Record PsRecord := {
  PID : string;
  PPID : string;
  COMMAND : string;
}.

(** What the operating system answers when asked. *)
Record Os := {
  (** the files [fs.existsSync] and [require] see *)
  files : gmap string File;
  (** whether the [n]-th throwaway server gets ['listening'] on a port *)
  port_free : nat -> Z -> bool;
  (** the pid of the next child *)
  child_pid : Z;
  (** the rows [ps-tree] reports for a pid *)
  processTree : Z -> list PsRecord;
}.

(** What the event loop delivers once a child exists. *)
Inductive LoopEvent :=
| ChildStdout (data : string)   (* ['data'] on the child's stdout *)
| ChildExit                     (* ['exit'] on the child *)
| ChildError                    (* ['error'] on the child *)
| StartupTimeout                (* the start timer fires *)
| PauseElapsed                  (* a one-second timer fires *)
| HttpResponse.                 (* the callback of an [http.get] *)

(** What the manager asks of Node and of the operating system. *)
Inductive Effect :=
| Spawn (command : string) (args : list string) (cwd : string)
        (env : gmap string string) (pid : Z)
| Kill (pid : Z)
| SpawnSync (command : string) (args : list string)
| ServerListen (port : Z) (host : string)
| ServerClose
| SetTimeout (ms : Z)
| HttpGet (url : string)
| PsTree (pid : Z)
| UnhandledRejection (r : Reason).

(** [cp.SpawnOptions] as the module fills it: [env] is a reference to an
    object of the heap, so that two option objects can share one. *)
Record SpawnOptions := {
  cwd : string;
  env : nat;
}.

Section Model.
Context {P : Platform}.

(** The fields of [AbstractHostedPluginManager]; [None] is [undefined]. *)
Record Manager := {
  hostedInstanceProcess : option Z;
  isInstanceRunnig : bool;
  port : option Z;
  instanceUri : option URI;
}.

Record World := {
  this : Manager;
  (** [process.env] *)
  process_env : gmap string string;
  (** the module constant [PROCESS_OPTIONS] *)
  PROCESS_OPTIONS : SpawnOptions;
  (** the environment objects, by reference *)
  heap : gmap nat (gmap string string);
  (** Node's module cache, which [require] fills *)
  require_cache : gmap string json;
  (** how many throwaway servers have been opened *)
  probes : nat;
  effects : list Effect;
  inbox : list LoopEvent;
}.

Definition with_this (m : Manager) (w : World) : World :=
  {| this := m; process_env := process_env w;
     PROCESS_OPTIONS := PROCESS_OPTIONS w; heap := heap w;
     require_cache := require_cache w; probes := probes w;
     effects := effects w; inbox := inbox w |}.

Definition with_heap (h : gmap nat (gmap string string)) (w : World) : World :=
  {| this := this w; process_env := process_env w;
     PROCESS_OPTIONS := PROCESS_OPTIONS w; heap := h;
     require_cache := require_cache w; probes := probes w;
     effects := effects w; inbox := inbox w |}.

Definition with_require_cache (c : gmap string json) (w : World) : World :=
  {| this := this w; process_env := process_env w;
     PROCESS_OPTIONS := PROCESS_OPTIONS w; heap := heap w;
     require_cache := c; probes := probes w;
     effects := effects w; inbox := inbox w |}.

Definition with_probes (n : nat) (w : World) : World :=
  {| this := this w; process_env := process_env w;
     PROCESS_OPTIONS := PROCESS_OPTIONS w; heap := heap w;
     require_cache := require_cache w; probes := n;
     effects := effects w; inbox := inbox w |}.

Definition with_inbox (l : list LoopEvent) (w : World) : World :=
  {| this := this w; process_env := process_env w;
     PROCESS_OPTIONS := PROCESS_OPTIONS w; heap := heap w;
     require_cache := require_cache w; probes := probes w;
     effects := effects w; inbox := l |}.

(** Append one effect to the log. *)
Definition emit (e : Effect) (w : World) : World :=
  {| this := this w; process_env := process_env w;
     PROCESS_OPTIONS := PROCESS_OPTIONS w; heap := heap w;
     require_cache := require_cache w; probes := probes w;
     effects := (effects w ++ [e])%list; inbox := inbox w |}.

Definition set_isInstanceRunnig (b : bool) (w : World) : World :=
  with_this {| hostedInstanceProcess := hostedInstanceProcess (this w);
               isInstanceRunnig := b;
               port := port (this w);
               instanceUri := instanceUri (this w) |} w.

Definition set_hostedInstanceProcess (pid : Z) (w : World) : World :=
  with_this {| hostedInstanceProcess := Some pid;
               isInstanceRunnig := isInstanceRunnig (this w);
               port := port (this w);
               instanceUri := instanceUri (this w) |} w.

Definition set_port (p : Z) (w : World) : World :=
  with_this {| hostedInstanceProcess := hostedInstanceProcess (this w);
               isInstanceRunnig := isInstanceRunnig (this w);
               port := Some p;
               instanceUri := instanceUri (this w) |} w.

Definition set_instanceUri (u : URI) (w : World) : World :=
  with_this {| hostedInstanceProcess := hostedInstanceProcess (this w);
               isInstanceRunnig := isInstanceRunnig (this w);
               port := port (this w);
               instanceUri := Some u |} w.

(** [options.env[k]] and [options.env[k] = v], through the reference. *)
Definition env_of (options : SpawnOptions) (w : World) : gmap string string :=
  default ∅ (heap w !! env options).

Definition env_write (options : SpawnOptions) (k v : string) (w : World) : World :=
  with_heap (<[env options := <[k := v]> (env_of options w)]> (heap w)) w.

(** The module's top level: [PROCESS_OPTIONS] gets the working directory and
    a fresh copy of [process.env], from which [ELECTRON_RUN_AS_NODE] is
    deleted. The manager's constructor clears the flag. *)
Definition new_manager : Manager :=
  {| hostedInstanceProcess := None; isInstanceRunnig := false;
     port := None; instanceUri := None |}.

Definition module_load (dir : string) (penv : gmap string string)
    (events : list LoopEvent) : World :=
  {| this := new_manager;
     process_env := penv;
     PROCESS_OPTIONS := {| cwd := dir; env := 0%nat |};
     heap := {[ 0%nat := delete "ELECTRON_RUN_AS_NODE" penv ]};
     require_cache := ∅;
     probes := 0%nat;
     effects := [];
     inbox := events |}.

(** *** Promises in direct style *)

Definition Async (A : Type) : Type := World -> Settle A * World.

Definition resolve {A} (a : A) : Async A := fun w => (Fulfilled a, w).
Definition reject {A} (r : Reason) : Async A := fun w => (Rejected r, w).

(** [await]: the rest runs once the promise is fulfilled; a rejection is
    thrown on, and nothing runs after a promise that stays pending. *)
Definition await {A B} (m : Async A) (k : A -> Async B) : Async B :=
  fun w =>
    match m w with
    | (Fulfilled a, w') => k a w'
    | (Rejected r, w') => (Rejected r, w')
    | (Pending, w') => (Pending, w')
    end.

Definition perform (f : World -> World) : Async unit :=
  fun w => (Fulfilled tt, f w).

End Model.

Notation "'let/a' x ':=' m 'in' k" := (await m (fun x => k))
  (at level 10, x name, m at level 100, k at level 200).
Notation "m ';;;' k" := (await m (fun _ => k))
  (at level 100, k at level 200, right associativity).

(* ===================================================================== *)
(** ** The manager *)
(* ===================================================================== *)

(** The two concrete classes: the first carries the contributions that
    [uriPostProcessors.getContributions()] enumerates, in that order, each
    with the promise its [processUri] returns. *)
Inductive Variant {P : Platform} :=
| NodeHostedPluginRunner (uriPostProcessors : list (URI -> Settle URI))
| ElectronNodeHostedPluginRunner.

Section Operations.
Context {P : Platform}.

Definition isRunning (w : World) : bool :=
  isInstanceRunnig (this w).

(** *** Port validation *)

Definition isPortFree (os : Os) (port : Z) : Async bool :=
  fun w =>
    let w := emit (ServerListen port "0.0.0.0") w in
    let free := port_free os (probes w) port in
    let w := with_probes (S (probes w)) w in
    if free then (Fulfilled true, emit ServerClose w)
    else (Fulfilled false, w).

(** A one-second [setTimeout] awaited before any child exists: nothing the
    manager listens to can happen meanwhile. *)
Definition pause : Async unit :=
  perform (emit (SetTimeout 1000)).

Definition validatePort (os : Os) (port : Z) : Async unit :=
  if ((port <? 1)%Z || (port >? 65535)%Z)%bool then
    reject InvalidPortError
  else
    let/a free := isPortFree os port in
    if negb free then
      pause ;;;
      let/a free' := isPortFree os port in
      if negb free' then reject (PortInUseError port)
      else resolve tt
    else resolve tt.

(** *** The start command *)

(** Truthiness of an optional number ([undefined], [NaN] and [0] are
    falsy) and of an environment variable (unset and empty are falsy). *)
Definition truthy_port (port : option Z) : option Z :=
  match port with
  | Some p => if Z.eqb p 0 then None else Some p
  | None => None
  end.

Definition truthy_var (v : option string) : option string :=
  match v with
  | Some s => if String.eqb s "" then None else Some s
  | None => None
  end.

Definition AbstractHostedPluginManager_getStartCommand
    (os : Os) (port : option Z) : Async (list string) :=
  fun w =>
    let command := ["yarn"; "theia"; "start"] in
    let command :=
      match truthy_var (process_env w !! "HOSTED_PLUGIN_HOSTNAME") with
      | Some h => (command ++ ["--hostname=" +:+ h])%list
      | None => command
      end in
    match truthy_port port with
    | Some p =>
        (validatePort os p ;;;
         perform (set_port p) ;;;
         resolve (command ++ ["--port=" +:+ pretty p])%list) w
    | None => resolve command w
    end.

Definition getStartCommand (v : Variant) (os : Os) (port : option Z)
    : Async (list string) :=
  match v with
  | NodeHostedPluginRunner _ =>
      fun w =>
        let port :=
          match truthy_port port with
          | Some p => Some p
          | None =>
              match truthy_var (process_env w !! "HOSTED_PLUGIN_PORT") with
              | Some s => Number s
              | None => Some 3030
              end
          end in
        AbstractHostedPluginManager_getStartCommand os port w
  | ElectronNodeHostedPluginRunner =>
      AbstractHostedPluginManager_getStartCommand os port
  end.

(** *** Post-processing of the instance URI *)

Fixpoint processUris (ps : list (URI -> Settle URI)) (uri : URI) : Settle URI :=
  match ps with
  | [] => Fulfilled uri
  | uriPostProcessor :: rest =>
      match uriPostProcessor uri with
      | Fulfilled uri' => processUris rest uri'
      | Rejected r => Rejected r
      | Pending => Pending
      end
  end.

Definition postProcessInstanceUri (v : Variant) (uri : URI) : Async URI :=
  fun w =>
    match v with
    | NodeHostedPluginRunner uriPostProcessors =>
        (processUris uriPostProcessors uri, w)
    | ElectronNodeHostedPluginRunner => (Fulfilled uri, w)
    end.

(** *** Starting the child *)

(** The handlers installed on every child: ['error'] and ['exit'] clear the
    flag. Outside [run] nothing else is listening. *)
Definition dispatch (e : LoopEvent) (w : World) : World :=
  match e, hostedInstanceProcess (this w) with
  | ChildExit, Some _ => set_isInstanceRunnig false w
  | ChildError, Some _ => set_isInstanceRunnig false w
  | _, _ => w
  end.

(** The promise of [runHostedPluginTheiaInstance] after the spawn: the
    output listener resolves it on the first chunk the pattern matches, the
    start timer rejects it if nothing matched before. (With no handle in
    [hostedInstanceProcess] the timer's callback would stop at [kill]; the
    spawn always leaves one.) *)
Fixpoint await_started (events : list LoopEvent) (w : World)
    : Settle URI * World :=
  match events with
  | [] => (Pending, with_inbox [] w)
  | e :: rest =>
      match e with
      | ChildStdout data =>
          match THEIA_INSTANCE_REGEX_exec data with
          | Some m1 => (Fulfilled (new_URI m1), with_inbox rest w)
          | None => await_started rest w
          end
      | StartupTimeout =>
          match hostedInstanceProcess (this w) with
          | Some pid =>
              (Rejected (StrVal "Timeout."),
               with_inbox rest (set_isInstanceRunnig false (emit (Kill pid) w)))
          | None => await_started rest w
          end
      | ChildExit | ChildError =>
          await_started rest (set_isInstanceRunnig false w)
      | PauseElapsed | HttpResponse =>
          await_started rest w
      end
  end.

Definition runHostedPluginTheiaInstance (os : Os) (command : list string)
    (options : SpawnOptions) : Async URI :=
  fun w =>
    let w := set_isInstanceRunnig true w in
    match command with
    | [] => (Rejected (ErrorObj "The file argument must be of type string"), w)
    | file :: args =>
        let pid := child_pid os in
        let w := emit (Spawn file args (cwd options) (env_of options w) pid) w in
        let w := set_hostedInstanceProcess pid w in
        let w := emit (SetTimeout HOSTED_INSTANCE_START_TIMEOUT_MS) w in
        await_started (inbox w) w
    end.

(** *** The liveness probe *)

(** [loop] is [Some i] while the [for] loop is in the pause of iteration
    [i], and [None] once the loop is over. The promise is resolved by the
    callback of any of the requests, whenever it runs; when the tenth pause
    ends without one, the [throw] rejects the promise of the [async]
    executor, which nobody holds, and the promise of [ensureUriAvailable]
    stays as it is. *)
Fixpoint poll (uri : URI) (loop : option nat) (events : list LoopEvent)
    (w : World) : Settle unit * World :=
  match events with
  | [] => (Pending, with_inbox [] w)
  | e :: rest =>
      match e with
      | HttpResponse => (Fulfilled tt, with_inbox rest w)
      | PauseElapsed =>
          match loop with
          | Some i =>
              if (S i <? 10)%nat then
                poll uri (Some (S i)) rest
                  (emit (SetTimeout 1000) (emit (HttpGet (uri_toString uri)) w))
              else
                poll uri None rest
                  (emit (UnhandledRejection
                           (UnreachableEndpointError (uri_toString uri))) w)
          | None => poll uri None rest w
          end
      | ChildExit | ChildError =>
          poll uri loop rest (set_isInstanceRunnig false w)
      | ChildStdout _ | StartupTimeout =>
          poll uri loop rest w
      end
  end.

Definition ensureUriAvailable (uri : URI) : Async unit :=
  fun w =>
    let w := emit (HttpGet (uri_toString uri)) w in
    let w := emit (SetTimeout 1000) w in
    poll uri (Some 0%nat) (inbox w) w.

(** *** The public methods *)

Definition shallow_copy (options : SpawnOptions) : SpawnOptions :=
  {| cwd := cwd options; env := env options |}.

Definition run (v : Variant) (os : Os) (pluginUri : URI) (port : option Z)
    : Async (option URI) :=
  fun w =>
    if isInstanceRunnig (this w) then
      (Rejected AlreadyRunningError, w)
    else if String.eqb (uri_scheme pluginUri) "file" then
      let processOptions := shallow_copy (PROCESS_OPTIONS w) in
      let w := env_write processOptions "HOSTED_PLUGIN" (uri_path pluginUri) w in
      let w := env_write processOptions "THEIA_PLUGINS" "" w in
      (let/a command := getStartCommand v os port in
       let/a started := runHostedPluginTheiaInstance os command processOptions in
       let/a uri := postProcessInstanceUri v started in
       perform (set_instanceUri uri) ;;;
       ensureUriAvailable uri ;;;
       fun w => (Fulfilled (instanceUri (this w)), w)) w
    else
      (Rejected (UnsupportedLocationError (uri_toString pluginUri)), w).

Definition terminate (os : Os) (w : World) : Completion (Settle unit) * World :=
  if isInstanceRunnig (this w) then
    match hostedInstanceProcess (this w) with
    | Some pid =>
        let w := emit (PsTree pid) w in
        let children := processTree os pid in
        let w := emit (SpawnSync "kill" ("SIGTERM" :: map PID children)) w in
        (Normal (Fulfilled tt), w)
    | None =>
        (Normal (Rejected (ErrorObj "Cannot read property 'pid' of undefined")), w)
    end
  else
    (Throw NotRunningError, w).

Definition getInstanceURI (w : World) : Completion (option URI) :=
  if isInstanceRunnig (this w) then Normal (instanceUri (this w))
  else Throw NotRunningError.

(** [require(path)] of a [.json] file that exists: the module cache answers
    if it can, else the file is parsed and cached. *)
Definition require (path : string) (f : File) (w : World)
    : Completion json * World :=
  match require_cache w !! path with
  | Some v => (Normal v, w)
  | None =>
      match f with
      | JsonText v =>
          (Normal v, with_require_cache (<[path := v]> (require_cache w)) w)
      | Unparsable =>
          (Throw (ErrorObj (path +:+ ": Unexpected token in JSON")), w)
      end
  end.

Definition isPluginValid (os : Os) (uri : URI) (w : World)
    : Completion bool * World :=
  let packageJsonPath := uri_path uri +:+ "/package.json" in
  match files os !! packageJsonPath with
  | Some f =>
      match require packageJsonPath f w with
      | (Normal packageJson, w') =>
          match get_prop (Some packageJson) "theiaPlugin" with
          | Normal plugin =>
              if truthy plugin then
                match get_prop plugin "frontend" with
                | Normal frontend =>
                    if truthy frontend then (Normal true, w')
                    else match get_prop plugin "backend" with
                         | Normal backend => (Normal (truthy backend), w')
                         | Throw r => (Throw r, w')
                         end
                | Throw r => (Throw r, w')
                end
              else (Normal false, w')
          | Throw r => (Throw r, w')
          end
      | (Throw r, w') => (Throw r, w')
      end
  | None => (Normal false, w)
  end.

End Operations.

(* ===================================================================== *)
(** ** A small platform to run the model on *)
(* ===================================================================== *)

Module Demo.

(** URIs as their text: the scheme is what stands before the first colon,
    the path what follows the authority. *)
Fixpoint before_colon (s : string) : string :=
  match s with
  | EmptyString => ""
  | String c r => if Ascii.eqb c ":"%char then "" else String c (before_colon r)
  end.

Fixpoint from_slash (s : string) : string :=
  match s with
  | EmptyString => ""
  | String c r => if Ascii.eqb c "/"%char then s else from_slash r
  end.

Fixpoint after_colon (s : string) : string :=
  match s with
  | EmptyString => ""
  | String c r => if Ascii.eqb c ":"%char then r else after_colon r
  end.

Definition path_of (s : string) : string :=
  match strip_prefix "//" (after_colon s) with
  | Some r => from_slash r
  | None => after_colon s
  end.

Definition digit (c : ascii) : option Z :=
  let n := Z.of_nat (nat_of_ascii c) in
  if ((48 <=? n)%Z && (n <=? 57)%Z)%bool then Some (n - 48)%Z else None.

Fixpoint digits (acc : Z) (s : string) : option Z :=
  match s with
  | EmptyString => Some acc
  | String c r =>
      match digit c with
      | Some d => digits (10 * acc + d) r
      | None => None
      end
  end.

Definition platform : Platform :=
  {| URI := string;
     new_URI := fun s => s;
     uri_scheme := before_colon;
     uri_path := path_of;
     uri_toString := fun s => s;
     Number := digits 0 |}.

(** A post-processor that appends a segment to the URI. *)
Definition append (segment : string) : @URI platform -> @URI platform :=
  fun uri => uri +:+ segment.

Definition ready : LoopEvent :=
  ChildStdout "root INFO Theia app listening on http://localhost:3030. [] ".

(** An operating system whose ports are all free ([busy = false]) or all
    bound, which gives every child the pid 100 and reports [rows] as its
    process tree. *)
Definition os (busy : bool) (rows : list PsRecord) (fs : gmap string File)
    : Os :=
  {| files := fs;
     port_free := fun _ _ => negb busy;
     child_pid := 100;
     processTree := fun _ => rows |}.

Definition quiet_os : Os := os false [] ∅.

(** A port that is bound at the first probe and free at the retry. *)
Definition freed_at_retry : Os :=
  {| files := ∅;
     port_free := fun n _ => negb (Nat.eqb n 0);
     child_pid := 100;
     processTree := fun _ => [] |}.

(** A child with one child of its own, which has one in turn. *)
Definition rows : list PsRecord :=
  [ {| PID := "101"; PPID := "100"; COMMAND := "node" |};
    {| PID := "102"; PPID := "101"; COMMAND := "node" |} ].

Definition plugin : @URI platform := "file:///home/p".

Definition plugin_q : @URI platform := "file:///home/q".



(** The module just loaded in [/work] with an empty [process.env]. *)
Definition fresh (events : list LoopEvent) : @World platform :=
  module_load "/work" ∅ events.

(** The world after a launch that went well. *)
Definition started : @World platform :=
  snd (run (P := platform) ElectronNodeHostedPluginRunner quiet_os plugin
         None (fresh [ready; HttpResponse])).

(** Manifests. *)
Definition manifest_path : string := "/home/p/package.json".

Definition empty_frontend : json :=
  JObj [("theiaPlugin", JObj [("frontend", JStr "")])].

Definition backend_main : json :=
  JObj [("theiaPlugin", JObj [("backend", JStr "main.js")])].

End Demo.

(* ===================================================================== *)
(** ** Vocabulary of the properties *)
(* ===================================================================== *)

Section Vocabulary.
Context {P : Platform}.

(** What [validatePort] asks of the network for a port in range, by the
    answers of the first and of the second probe. *)
Definition probe_trace (port : Z) (first second : bool) : list Effect :=
  if first then [ServerListen port "0.0.0.0"; ServerClose]
  else [ServerListen port "0.0.0.0"; SetTimeout 1000;
        ServerListen port "0.0.0.0"]
       ++ (if second then [ServerClose] else []).

Definition probe_verdict (port : Z) (first second : bool) : Settle unit :=
  if first then Fulfilled tt
  else if second then Fulfilled tt
  else Rejected (PortInUseError port).

(** The part of the world that belongs to the module and to Node rather
    than to one manager. *)
Definition module_state (w : World) :=
  (process_env w, PROCESS_OPTIONS w, heap w, require_cache w).

(** No exit or error event among the events. *)
Definition child_alive (events : list LoopEvent) : Prop :=
  ~ In ChildExit events /\ ~ In ChildError events.

(** No chunk among the events matches the readiness pattern. *)
Definition no_ready_line (events : list LoopEvent) : Prop :=
  forall data, In (ChildStdout data) events ->
               THEIA_INSTANCE_REGEX_exec data = None.

Definition is_get (e : Effect) : bool :=
  match e with HttpGet _ => true | _ => false end.

Definition requests (w : World) : nat :=
  length (List.filter is_get (effects w)).

(** The world in which [run] asks for the start command: the two variables
    have been written through the copied options. *)
Definition prepared (pluginUri : URI) (w : World) : World :=
  let processOptions := shallow_copy (PROCESS_OPTIONS w) in
  env_write processOptions "THEIA_PLUGINS" ""
    (env_write processOptions "HOSTED_PLUGIN" (uri_path pluginUri) w).

(** The world in which the child has just been spawned and the start timer
    armed. *)
Definition spawned (os : Os) (file : string) (args : list string)
    (options : SpawnOptions) (w : World) : World :=
  emit (SetTimeout HOSTED_INSTANCE_START_TIMEOUT_MS)
    (set_hostedInstanceProcess (child_pid os)
       (emit (Spawn file args (cwd options)
                (env_of options (set_isInstanceRunnig true w)) (child_pid os))
          (set_isInstanceRunnig true w))).

(** The manifest is an object whose [theiaPlugin] is an object with a
    truthy [frontend] or [backend]. *)
Definition declares_plugin (v : json) : Prop :=
  exists props plugin x,
    v = JObj props
    /\ assoc "theiaPlugin" props = Some (JObj plugin)
    /\ (assoc "frontend" plugin = Some x \/ assoc "backend" plugin = Some x)
    /\ truthy (Some x) = true.

(** The specification's wording: the manifest has a contribution object
    that contains a [frontend] or a [backend] entry. *)
Definition contains_entry (v : json) : Prop :=
  exists props plugin x,
    v = JObj props
    /\ assoc "theiaPlugin" props = Some (JObj plugin)
    /\ (assoc "frontend" plugin = Some x \/ assoc "backend" plugin = Some x).

Definition verdict (v : json) : bool :=
  match v with
  | JObj props =>
      match assoc "theiaPlugin" props with
      | Some (JObj plugin) =>
          (truthy (assoc "frontend" plugin) || truthy (assoc "backend" plugin))%bool
      | _ => false
      end
  | _ => false
  end.

(** What can happen to a manager besides [run]: calls of its other public
    methods, and events delivered while no call is in progress. *)
Inductive Call :=
| CallTerminate (os : Os)
| CallGetInstanceURI
| CallIsPluginValid (os : Os) (uri : URI)
| Deliver (e : LoopEvent).

Definition call (c : Call) (w : World) : World :=
  match c with
  | CallTerminate os => snd (terminate os w)
  | CallGetInstanceURI => w
  | CallIsPluginValid os uri => snd (isPluginValid os uri w)
  | Deliver e => dispatch e w
  end.

Definition replay (calls : list Call) (w : World) : World :=
  fold_left (fun w c => call c w) calls w.

End Vocabulary.

(* ===================================================================== *)
(** ** Vocabulary of the further properties *)
(* ===================================================================== *)

(** A string without line terminator. *)
Fixpoint single_line (s : string) : bool :=
  match s with
  | EmptyString => true
  | String c r => (negb (is_line_terminator c) && single_line r)%bool
  end.

(** The code unit occurs in the string. *)
Fixpoint has_char (c : ascii) (s : string) : bool :=
  match s with
  | EmptyString => false
  | String x r => (Ascii.eqb c x || has_char c r)%bool
  end.

Definition is_spawn (e : Effect) : bool :=
  match e with Spawn _ _ _ _ _ => true | _ => false end.

(** The children spawned, in order. *)
Definition spawns (l : list Effect) : list Effect :=
  List.filter is_spawn l.

(** The events delivered before the first response to a probe. *)
Fixpoint until_response (events : list LoopEvent) : list LoopEvent :=
  match events with
  | [] => []
  | HttpResponse :: _ => []
  | e :: rest => e :: until_response rest
  end.

(** How many one-second timers fire among the events. *)
Fixpoint pauses (events : list LoopEvent) : nat :=
  match events with
  | [] => 0
  | PauseElapsed :: rest => S (pauses rest)
  | _ :: rest => pauses rest
  end.

Definition is_unhandled (e : Effect) : bool :=
  match e with UnhandledRejection _ => true | _ => false end.

(** The [HOSTED_PLUGIN] each child was given, in the order of the spawns. *)
Fixpoint hosted_plugins (l : list Effect) : list (option string) :=
  match l with
  | [] => []
  | Spawn _ _ _ env _ :: rest => env !! "HOSTED_PLUGIN" :: hosted_plugins rest
  | _ :: rest => hosted_plugins rest
  end.

Section FurtherVocabulary.
Context {P : Platform}.

(** The flags [getStartCommand] adds to [yarn theia start]. *)
Definition hostname_flag (w : World) : list string :=
  match truthy_var (process_env w !! "HOSTED_PLUGIN_HOSTNAME") with
  | Some h => ["--hostname=" +:+ h]
  | None => []
  end.

Definition port_flag (port : option Z) : list string :=
  match truthy_port port with
  | Some p => ["--port=" +:+ pretty p]
  | None => []
  end.

(** The environment object that [PROCESS_OPTIONS.env] refers to. *)
Definition shared_env (w : World) : gmap string string :=
  env_of (PROCESS_OPTIONS w) w.

(** The environment a hosted instance has to be given: the plugin under
    development, no other plugin, and no marker that would make it start
    inside Electron's runtime. *)
Definition standalone_env (e : gmap string string) : Prop :=
  e !! "ELECTRON_RUN_AS_NODE" = None
  /\ e !! "THEIA_PLUGINS" = Some ""
  /\ is_Some (e !! "HOSTED_PLUGIN").

Definition standalone_spawn (e : Effect) : Prop :=
  match e with
  | Spawn file args _ env _ =>
      file = "yarn" /\ take 2 args = ["theia"; "start"] /\ standalone_env env
  | _ => True
  end.

(** A child's environment has every variable of [penv] other than the
    three the module deals with. *)
Definition inherits (penv : gmap string string) (e : Effect) : Prop :=
  match e with
  | Spawn _ _ _ env _ =>
      forall k, k <> "ELECTRON_RUN_AS_NODE" -> k <> "HOSTED_PLUGIN" ->
                k <> "THEIA_PLUGINS" -> env !! k = penv !! k
  | _ => True
  end.

(** What the module keeps true of its shared environment and of the
    children spawned so far. *)
Definition well_kept (penv : gmap string string) (w : World) : Prop :=
  env_of (PROCESS_OPTIONS w) w !! "ELECTRON_RUN_AS_NODE" = None
  /\ (forall k, k <> "ELECTRON_RUN_AS_NODE" -> k <> "HOSTED_PLUGIN" ->
                k <> "THEIA_PLUGINS" ->
                env_of (PROCESS_OPTIONS w) w !! k = penv !! k)
  /\ Forall (fun e => standalone_spawn e /\ inherits penv e)
       (spawns (effects w)).

(** While the flag is set the manager holds the handle of a child. *)
Definition handle_when_running (w : World) : Prop :=
  isRunning w = true -> hostedInstanceProcess (this w) <> None.

(** How many rejections nobody handled. *)
Definition unhandled (w : World) : nat :=
  length (List.filter is_unhandled (effects w)).

(** One thing that happens to a manager: a [run] during which the given
    events are delivered, or anything else. *)
Inductive Step :=
| Launch (v : Variant) (os : Os) (pluginUri : URI) (port : option Z)
         (events : list LoopEvent)
| Other (c : Call).

Definition step (st : Step) (w : World) : World :=
  match st with
  | Launch v os pluginUri port events =>
      snd (run v os pluginUri port (with_inbox events w))
  | Other c => call c w
  end.

Definition history (steps : list Step) (w : World) : World :=
  fold_left (fun w st => step st w) steps w.

End FurtherVocabulary.

(* ===================================================================== *)
(** ** The file navigator model *)
(* ===================================================================== *)

(** [FileNavigatorModel.revealFile] of
    [packages/navigator/src/browser/navigator-model.ts]. The URI class and
    the tree the model extends are used, not defined, there: [uri.path.isRoot],
    [uri.parent], [this.root], [this.getNode], [ExpandableTreeNode.is],
    [node.expanded] and [this.expandNode] are an interface. A [Tree] is the
    state of the tree together with that of its node objects; a [TreeNode]
    is the identity of a node object, which [===] compares. *)
Class Navigator := {
  NavUri : Type;
  nav_toString : NavUri -> string;
  nav_isRoot : NavUri -> bool;
  nav_parent : NavUri -> NavUri;
  TreeNode : Type;
  TreeNode_eq_dec :: EqDecision TreeNode;
  Tree : Type;
  tree_root : Tree -> option TreeNode;
  getNode : Tree -> string -> option TreeNode;
  ExpandableTreeNode_is : Tree -> TreeNode -> bool;
  expanded : Tree -> TreeNode -> bool;
  expandNode : TreeNode -> Tree -> Settle unit * Tree;
}.

Section NavigatorModel.
Context {N : Navigator}.

(** [if (ExpandableTreeNode.is(node) && !node.expanded) await
    this.expandNode(node); return node], for a node that is there. *)
Definition expand_and_return (node : TreeNode) (t : Tree)
    : Settle (option TreeNode) * Tree :=
  if (ExpandableTreeNode_is t node && negb (expanded t node))%bool then
    match expandNode node t with
    | (Fulfilled _, t') => (Fulfilled (Some node), t')
    | (Rejected r, t') => (Rejected r, t')
    | (Pending, t') => (Pending, t')
    end
  else (Fulfilled (Some node), t).

(** [revealFile]; the recursion follows [parent], which nothing in the
    method bounds, so that the model counts the calls it may still make:
    [None] says that [fuel] calls were not enough. *)
Fixpoint revealFile (fuel : nat) (targetFileUri : NavUri) (t : Tree)
    : option (Settle (option TreeNode) * Tree) :=
  match fuel with
  | O => None
  | S fuel' =>
      let navigatorNodeId := nav_toString targetFileUri in
      let node := getNode t navigatorNodeId in
      if decide (tree_root t = node) then
        match node with
        | Some n =>
            if ExpandableTreeNode_is t n then Some (expand_and_return n t)
            else Some (Fulfilled None, t)
        | None => Some (Fulfilled None, t)
        end
      else if nav_isRoot targetFileUri then Some (Fulfilled None, t)
      else
        match revealFile fuel' (nav_parent targetFileUri) t with
        | None => None
        | Some (Fulfilled (Some _), t1) =>
            let node :=
              match node with
              | None => getNode t1 navigatorNodeId
              | Some n => Some n
              end in
            match node with
            | Some n => Some (expand_and_return n t1)
            | None => Some (Fulfilled None, t1)
            end
        | Some (Fulfilled None, t1) => Some (Fulfilled None, t1)
        | Some (Rejected r, t1) => Some (Rejected r, t1)
        | Some (Pending, t1) => Some (Pending, t1)
        end
  end.

(** The node with this id is the root of the tree. *)
Definition is_root (t : Tree) (id : string) : bool :=
  match tree_root t, getNode t id with
  | Some a, Some b => bool_decide (a = b)
  | _, _ => false
  end.

(** Going from [u] to parent after parent, the root of the tree is met
    within [fuel] URIs, before a URI whose path is the root is left. *)
Fixpoint under_root (fuel : nat) (u : NavUri) (t : Tree) : bool :=
  match fuel with
  | O => false
  | S fuel' =>
      (is_root t (nav_toString u)
       || (negb (nav_isRoot u) && under_root fuel' (nav_parent u) t))%bool
  end.

(** Going from [u] to parent after parent, a URI whose path is the root is
    met within [fuel] URIs. *)
Fixpoint ends_within (fuel : nat) (u : NavUri) : bool :=
  match fuel with
  | O => false
  | S fuel' => (nav_isRoot u || ends_within fuel' (nav_parent u))%bool
  end.

(** What the method relies on in the tree: expanding a node leaves it
    expanded, collapses nothing, and keeps the nodes that are mounted, with
    their identity and their kind. *)
Record TreeLaws : Prop := {
  expandNode_expands : forall n t t',
    expandNode n t = (Fulfilled tt, t') -> expanded t' n = true;
  expandNode_keeps_expanded : forall n t m,
    expanded t m = true -> expanded (snd (expandNode n t)) m = true;
  expandNode_keeps_nodes : forall n t id m,
    getNode t id = Some m -> getNode (snd (expandNode n t)) id = Some m;
  expandNode_keeps_kind : forall n t m,
    ExpandableTreeNode_is (snd (expandNode n t)) m = ExpandableTreeNode_is t m;
}.

(** In [t], the URI has a node, and that node is expanded if it can be. *)
Definition revealed (t : Tree) (u : NavUri) : Prop :=
  exists m, getNode t (nav_toString u) = Some m
            /\ (ExpandableTreeNode_is t m = true -> expanded t m = true).

(** From [t] to [t'] nothing was collapsed or unmounted. *)
Definition grows (t t' : Tree) : Prop :=
  (forall m, expanded t m = true -> expanded t' m = true)
  /\ (forall id m, getNode t id = Some m -> getNode t' id = Some m)
  /\ (forall m, ExpandableTreeNode_is t' m = ExpandableTreeNode_is t m).

End NavigatorModel.

(** A small tree to run [revealFile] on: a URI is the list of its path
    segments, the last one first; a node is its id; a node is mounted if it
    is the root or if its parent is expanded; the state of the tree is the
    list of the expanded nodes. *)
Module DemoTree.

Fixpoint id_of (u : list string) : string :=
  match u with
  | [] => ""
  | segment :: rest => id_of rest +:+ "/" +:+ segment
  end.

Definition workspace : list string := ["ws"; "home"].

(** The directories of the workspace, with their parents. *)
Definition parent_of (id : string) : option string :=
  if String.eqb id "/home/ws/a" then Some "/home/ws"
  else if String.eqb id "/home/ws/a/b" then Some "/home/ws/a"
  else if String.eqb id "/home/ws/a/b/f.txt" then Some "/home/ws/a/b"
  else None.

Definition mounted (t : list string) (id : string) : bool :=
  (String.eqb id "/home/ws"
   || match parent_of id with
      | Some p => bool_decide (p ∈ t)
      | None => false
      end)%bool.

Definition navigator : Navigator :=
  {| NavUri := list string;
     nav_toString := id_of;
     nav_isRoot := fun u => bool_decide (u = []);
     nav_parent := fun u => tl u;
     TreeNode := string;
     Tree := list string;
     tree_root := fun _ => Some "/home/ws";
     getNode := fun t id => if mounted t id then Some id else None;
     ExpandableTreeNode_is := fun _ id => negb (String.eqb id "/home/ws/a/b/f.txt");
     expanded := fun t id => bool_decide (id ∈ t);
     expandNode := fun id t => (Fulfilled tt, id :: t) |}.

Definition file : @NavUri navigator := ["f.txt"; "b"; "a"; "ws"; "home"].

Definition elsewhere : @NavUri navigator := ["x"; "tmp"].

Definition all_expanded : @Tree navigator :=
  ["/home/ws/a/b"; "/home/ws/a"; "/home/ws"].

End DemoTree.

(* ===================================================================== *)
(** ** Properties *)
(* ===================================================================== *)

Section Properties.
Context {P : Platform}.

(** *** Guards of the public methods *)

(** C8: on a manager whose [isRunning()] is true, [run] rejects with the
    already-running error and leaves the world as it was: nothing is
    spawned, nothing is written. *)
Theorem run_while_running_rejects (v : Variant) (os : Os) (pluginUri : URI)
    (port : option Z) (w : World) :
  isRunning w = true ->
  run v os pluginUri port w = (Rejected AlreadyRunningError, w).
Proof.
  unfold isRunning, run. intros ->. reflexivity.
Qed.

(** *** Port validation *)

Lemma in_range_test (port : Z) :
  1 <= port <= 65535 -> ((port <? 1)%Z || (port >? 65535)%Z)%bool = false.
Proof.
  intros [Hlo Hhi]. apply orb_false_iff. split.
  - apply Z.ltb_ge. exact Hlo.
  - rewrite Z.gtb_ltb. apply Z.ltb_ge. exact Hhi.
Qed.

Lemma out_of_range_test (port : Z) :
  port < 1 \/ 65535 < port -> ((port <? 1)%Z || (port >? 65535)%Z)%bool = true.
Proof.
  intros [Hlo | Hhi]; apply orb_true_iff.
  - left. apply Z.ltb_lt. exact Hlo.
  - right. rewrite Z.gtb_ltb. apply Z.ltb_lt. exact Hhi.
Qed.

Lemma validatePort_out_of_range (os : Os) (port : Z) (w : World) :
  port < 1 \/ 65535 < port ->
  validatePort os port w = (Rejected InvalidPortError, w).
Proof.
  intros Hout. unfold validatePort.
  rewrite (out_of_range_test port Hout). reflexivity.
Qed.

Lemma validatePort_in_range (os : Os) (port : Z) (w : World) :
  1 <= port <= 65535 ->
  let first := port_free os (probes w) port in
  let second := port_free os (S (probes w)) port in
  fst (validatePort os port w) = probe_verdict port first second
  /\ effects (snd (validatePort os port w))
     = (effects w ++ probe_trace port first second)%list
  /\ probes (snd (validatePort os port w))
     = (if first then S (probes w) else S (S (probes w))).
Proof.
  intros Hin. unfold validatePort. rewrite (in_range_test port Hin).
  unfold await, isPortFree, pause, perform, resolve, reject,
    probe_verdict, probe_trace.
  cbn [probes emit with_probes].
  destruct (port_free os (probes w) port); cbn.
  - rewrite <- app_assoc. auto.
  - destruct (port_free os (S (probes w)) port); cbn;
      rewrite <- ?app_assoc; auto.
Qed.



(** A requested port of [0] is falsy: the base class then asks for no port
    at all and validates nothing. *)
Remark port_zero_is_no_port (os : Os) (w : World) :
  AbstractHostedPluginManager_getStartCommand os (Some 0) w
  = AbstractHostedPluginManager_getStartCommand os None w.
Proof. reflexivity. Qed.


(** *** What each phase of [run] leaves alone *)

Lemma validatePort_frame (os : Os) (port : Z) (w : World) :
  let w' := snd (validatePort os port w) in
  module_state w' = module_state w /\ this w' = this w /\ inbox w' = inbox w.
Proof.
  unfold validatePort, await, isPortFree, pause, perform, resolve, reject.
  destruct ((port <? 1)%Z || (port >? 65535)%Z)%bool; [cbn; auto|].
  cbn [probes emit with_probes].
  destruct (port_free os (probes w) port); cbn; auto.
  destruct (port_free os (S (probes w)) port); cbn; auto.
Qed.

Lemma validatePort_settles (os : Os) (port : Z) (w : World) :
  fst (validatePort os port w) <> Pending.
Proof.
  unfold validatePort, await, isPortFree, pause, perform, resolve, reject.
  destruct ((port <? 1)%Z || (port >? 65535)%Z)%bool; [cbn; discriminate|].
  cbn [probes emit with_probes].
  destruct (port_free os (probes w) port); cbn; [discriminate|].
  destruct (port_free os (S (probes w)) port); cbn; discriminate.
Qed.

(** [getStartCommand] touches the manager's [port] field and the network
    only; the command it gives starts with [yarn]. *)
Lemma base_getStartCommand_frame (os : Os) (port : option Z) (w : World) :
  let r := AbstractHostedPluginManager_getStartCommand os port w in
  module_state (snd r) = module_state w
  /\ inbox (snd r) = inbox w
  /\ isInstanceRunnig (this (snd r)) = isInstanceRunnig (this w)
  /\ hostedInstanceProcess (this (snd r)) = hostedInstanceProcess (this w)
  /\ instanceUri (this (snd r)) = instanceUri (this w)
  /\ fst r <> Pending
  /\ (forall command, fst r = Fulfilled command ->
        exists args, command = "yarn" :: args).
Proof.
  unfold AbstractHostedPluginManager_getStartCommand.
  destruct (truthy_port port) as [p|].
  - unfold await, perform, resolve.
    pose proof (validatePort_frame os p w) as (Hm & Ht & Hi).
    pose proof (validatePort_settles os p w) as Hs.
    destruct (validatePort os p w) as [[[] | r |] w1];
      cbn [fst snd] in *; [| |contradiction].
    + unfold module_state in *. cbn. injection Hm as -> -> -> ->.
      rewrite Hi, Ht. repeat split; try discriminate.
      intros command [= <-].
      destruct (truthy_var (process_env w !! "HOSTED_PLUGIN_HOSTNAME"));
        eexists; reflexivity.
    + rewrite Hm, Hi, Ht. repeat split; discriminate.
  - unfold resolve. cbn. repeat split; try discriminate.
    intros command [= <-].
    destruct (truthy_var (process_env w !! "HOSTED_PLUGIN_HOSTNAME"));
      eexists; reflexivity.
Qed.

Lemma getStartCommand_frame (v : Variant) (os : Os) (port : option Z)
    (w : World) :
  let r := getStartCommand v os port w in
  module_state (snd r) = module_state w
  /\ inbox (snd r) = inbox w
  /\ isInstanceRunnig (this (snd r)) = isInstanceRunnig (this w)
  /\ hostedInstanceProcess (this (snd r)) = hostedInstanceProcess (this w)
  /\ instanceUri (this (snd r)) = instanceUri (this w)
  /\ fst r <> Pending
  /\ (forall command, fst r = Fulfilled command ->
        exists args, command = "yarn" :: args).
Proof.
  destruct v; unfold getStartCommand; apply base_getStartCommand_frame.
Qed.

Lemma await_started_frame (events : list LoopEvent) (w : World) :
  let w' := snd (await_started events w) in
  module_state w' = module_state w
  /\ hostedInstanceProcess (this w') = hostedInstanceProcess (this w)
  /\ instanceUri (this w') = instanceUri (this w).
Proof.
  revert w. induction events as [|e rest IH]; intros w; [cbn; auto|].
  destruct e; cbn [await_started].
  - destruct (THEIA_INSTANCE_REGEX_exec data); [cbn; auto | apply IH].
  - specialize (IH (set_isInstanceRunnig false w)). cbn in IH. exact IH.
  - specialize (IH (set_isInstanceRunnig false w)). cbn in IH. exact IH.
  - destruct (hostedInstanceProcess (this w)) eqn:Hp; [cbn; auto|].
    rewrite <- Hp. apply IH.
  - apply IH.
  - apply IH.
Qed.

Lemma child_alive_cons_inv (e : LoopEvent) (events : list LoopEvent) :
  child_alive (e :: events) ->
  e <> ChildExit /\ e <> ChildError /\ child_alive events.
Proof.
  unfold child_alive. cbn. intros [H1 H2].
  repeat split; try (intros ->); tauto.
Qed.

Lemma no_ready_line_cons_inv (e : LoopEvent) (events : list LoopEvent) :
  no_ready_line (e :: events) -> no_ready_line events.
Proof. unfold no_ready_line. cbn. intros Hn data Hin. apply Hn. auto. Qed.

(** If no chunk matches before the start timer fires, the timer kills the
    child, clears the flag and rejects. *)
Lemma await_started_timeout (pre post : list LoopEvent) (w : World) (pid : Z) :
  no_ready_line pre ->
  ~ In StartupTimeout pre ->
  hostedInstanceProcess (this w) = Some pid ->
  let r := await_started (pre ++ StartupTimeout :: post) w in
  fst r = Rejected StartupTimeoutError
  /\ isInstanceRunnig (this (snd r)) = false
  /\ effects (snd r) = (effects w ++ [Kill pid])%list
  /\ inbox (snd r) = post.
Proof.
  revert w. induction pre as [|e pre IH]; intros w Hno Htimer Hpid.
  - cbn. rewrite Hpid. cbn. auto.
  - pose proof (no_ready_line_cons_inv _ _ Hno) as Hno'.
    assert (Htimer' : ~ In StartupTimeout pre) by (cbn in Htimer; tauto).
    destruct e; cbn [await_started app].
    + rewrite (Hno data) by (left; reflexivity). apply IH; assumption.
    + apply (IH (set_isInstanceRunnig false w)); assumption.
    + apply (IH (set_isInstanceRunnig false w)); assumption.
    + exfalso. apply Htimer. left. reflexivity.
    + apply IH; assumption.
    + apply IH; assumption.
Qed.

(** The first chunk that matches, if it comes before the start timer,
    fulfils the promise with the captured group. *)
Lemma await_started_ready (pre post : list LoopEvent) (data m1 : string)
    (w : World) :
  no_ready_line pre ->
  ~ In StartupTimeout pre ->
  THEIA_INSTANCE_REGEX_exec data = Some m1 ->
  let r := await_started (pre ++ ChildStdout data :: post) w in
  fst r = Fulfilled (new_URI m1) /\ inbox (snd r) = post.
Proof.
  revert w. induction pre as [|e pre IH]; intros w Hno Htimer Hm.
  - cbn. rewrite Hm. cbn. auto.
  - pose proof (no_ready_line_cons_inv _ _ Hno) as Hno'.
    assert (Htimer' : ~ In StartupTimeout pre) by (cbn in Htimer; tauto).
    destruct e; cbn [await_started app].
    + rewrite (Hno data0) by (left; reflexivity). apply IH; assumption.
    + apply (IH (set_isInstanceRunnig false w)); assumption.
    + apply (IH (set_isInstanceRunnig false w)); assumption.
    + exfalso. apply Htimer. left. reflexivity.
    + apply IH; assumption.
    + apply IH; assumption.
Qed.

(** If the promise is fulfilled, it is with the group captured from the
    first chunk that matches, and the flag is as it was unless the child
    exited or failed meanwhile. *)
Lemma await_started_fulfilled (events : list LoopEvent) (w : World) (u : URI) :
  fst (await_started events w) = Fulfilled u ->
  exists pre data post m1,
    events = (pre ++ ChildStdout data :: post)%list
    /\ no_ready_line pre
    /\ THEIA_INSTANCE_REGEX_exec data = Some m1
    /\ u = new_URI m1
    /\ inbox (snd (await_started events w)) = post
    /\ effects (snd (await_started events w)) = effects w
    /\ (child_alive pre ->
        isInstanceRunnig (this (snd (await_started events w)))
        = isInstanceRunnig (this w)).
Proof.
  revert w. induction events as [|e rest IH]; intros w; [discriminate|].
  assert (Hstep : forall w1,
    effects w1 = effects w ->
    (e <> ChildExit -> e <> ChildError ->
       isInstanceRunnig (this w1) = isInstanceRunnig (this w)) ->
    (forall data, e = ChildStdout data ->
       THEIA_INSTANCE_REGEX_exec data = None) ->
    fst (await_started rest w1) = Fulfilled u ->
    exists pre data post m1,
      (e :: rest) = (pre ++ ChildStdout data :: post)%list
      /\ no_ready_line pre
      /\ THEIA_INSTANCE_REGEX_exec data = Some m1
      /\ u = new_URI m1
      /\ inbox (snd (await_started rest w1)) = post
      /\ effects (snd (await_started rest w1)) = effects w
      /\ (child_alive pre ->
          isInstanceRunnig (this (snd (await_started rest w1)))
          = isInstanceRunnig (this w))).
  { intros w1 Heff Hflag Hmiss Hful.
    destruct (IH w1 Hful) as (pre & data & post & m1 & -> & Hno & Hm & -> & Hi & He & Hf).
    exists (e :: pre), data, post, m1. repeat split; auto.
    - intros d [-> | Hin]; [apply Hmiss; reflexivity | apply Hno; exact Hin].
    - congruence.
    - intros Halive.
      destruct (child_alive_cons_inv _ _ Halive) as (Hx & Hy & Halive').
      rewrite (Hf Halive'). apply Hflag; assumption. }
  destruct e; cbn [await_started].
  - destruct (THEIA_INSTANCE_REGEX_exec data) as [m1|] eqn:Hm.
    + cbn. intros [= <-]. exists [], data, rest, m1.
      repeat split; auto. intros d [].
    + apply Hstep; auto. intros d [= <-]. exact Hm.
  - apply Hstep; [reflexivity | congruence | discriminate].
  - apply Hstep; [reflexivity | congruence | discriminate].
  - destruct (hostedInstanceProcess (this w)); [discriminate|].
    apply Hstep; auto. discriminate.
  - apply Hstep; auto. discriminate.
  - apply Hstep; auto. discriminate.
Qed.

(** *** The liveness probe *)

Lemma poll_never_rejects (uri : URI) (events : list LoopEvent)
    (loop : option nat) (w : World) (r : Reason) :
  fst (poll uri loop events w) <> Rejected r.
Proof.
  revert loop w. induction events as [|e rest IH]; intros loop w;
    [discriminate|].
  destruct e; cbn [poll]; try apply IH; try discriminate.
  destruct loop as [i|]; [destruct (S i <? 10)%nat|]; apply IH.
Qed.

Lemma poll_frame (uri : URI) (events : list LoopEvent) (loop : option nat)
    (w : World) :
  let w' := snd (poll uri loop events w) in
  module_state w' = module_state w
  /\ hostedInstanceProcess (this w') = hostedInstanceProcess (this w)
  /\ instanceUri (this w') = instanceUri (this w).
Proof.
  revert loop w. induction events as [|e rest IH]; intros loop w; [cbn; auto|].
  destruct e; cbn [poll]; try apply IH; try (cbn; auto; fail).
  - apply (IH loop (set_isInstanceRunnig false w)).
  - apply (IH loop (set_isInstanceRunnig false w)).
  - destruct loop as [i|]; [destruct (S i <? 10)%nat|].
    + apply (IH (Some (S i))
               (emit (SetTimeout 1000) (emit (HttpGet (uri_toString uri)) w))).
    + apply (IH None
               (emit (UnhandledRejection
                        (UnreachableEndpointError (uri_toString uri))) w)).
    + apply IH.
Qed.

(** Without a response the promise of the probe stays pending, however
    many timers fire. *)
Lemma poll_silent (uri : URI) (events : list LoopEvent) (loop : option nat)
    (w : World) :
  ~ In HttpResponse events -> fst (poll uri loop events w) = Pending.
Proof.
  revert loop w. induction events as [|e rest IH]; intros loop w Hno;
    [reflexivity|].
  assert (Hno' : ~ In HttpResponse rest) by (cbn in Hno; tauto).
  destruct e; cbn [poll]; try (apply IH; exact Hno').
  - destruct loop as [i|]; [destruct (S i <? 10)%nat|]; apply IH; exact Hno'.
  - exfalso. apply Hno. left. reflexivity.
Qed.

(** The promise is fulfilled by the first response, and the flag is as it
    was unless the child exited or failed before it. *)
Lemma poll_fulfilled (uri : URI) (events : list LoopEvent) (loop : option nat)
    (w : World) :
  fst (poll uri loop events w) = Fulfilled tt ->
  exists consumed post,
    events = (consumed ++ HttpResponse :: post)%list
    /\ ~ In HttpResponse consumed
    /\ inbox (snd (poll uri loop events w)) = post
    /\ (child_alive consumed ->
        isInstanceRunnig (this (snd (poll uri loop events w)))
        = isInstanceRunnig (this w)).
Proof.
  revert loop w. induction events as [|e rest IH]; intros loop w;
    [discriminate|].
  assert (Hstep : forall loop1 w1,
    e <> HttpResponse ->
    (e <> ChildExit -> e <> ChildError ->
       isInstanceRunnig (this w1) = isInstanceRunnig (this w)) ->
    fst (poll uri loop1 rest w1) = Fulfilled tt ->
    exists consumed post,
      (e :: rest) = (consumed ++ HttpResponse :: post)%list
      /\ ~ In HttpResponse consumed
      /\ inbox (snd (poll uri loop1 rest w1)) = post
      /\ (child_alive consumed ->
          isInstanceRunnig (this (snd (poll uri loop1 rest w1)))
          = isInstanceRunnig (this w))).
  { intros loop1 w1 Hne Hflag Hful.
    destruct (IH loop1 w1 Hful) as (consumed & post & -> & Hno & Hi & Hf).
    exists (e :: consumed), post. repeat split; auto.
    - intros [He | Hin]; [apply Hne; exact He | apply Hno; exact Hin].
    - intros Halive.
      destruct (child_alive_cons_inv _ _ Halive) as (Hx & Hy & Halive').
      rewrite (Hf Halive'). apply Hflag; assumption. }
  destruct e; cbn [poll].
  - apply Hstep; auto; discriminate.
  - apply Hstep; [discriminate | congruence].
  - apply Hstep; [discriminate | congruence].
  - apply Hstep; auto; discriminate.
  - destruct loop as [i|]; [destruct (S i <? 10)%nat|];
      apply Hstep; auto; discriminate.
  - intros _. exists [], rest. cbn. repeat split; auto.
Qed.

Lemma requests_emit (e : Effect) (w : World) :
  requests (emit e w) = (requests w + (if is_get e then 1 else 0))%nat.
Proof.
  unfold requests. cbn. rewrite List.filter_app, length_app. cbn.
  destruct (is_get e); reflexivity.
Qed.

(** The loop sends at most ten requests. *)
Lemma poll_requests (uri : URI) (events : list LoopEvent) (loop : option nat)
    (w : World) :
  (requests (snd (poll uri loop events w))
   <= requests w + match loop with Some i => 9 - i | None => 0 end)%nat.
Proof.
  revert loop w. induction events as [|e rest IH]; intros loop w;
    [cbn; unfold requests; cbn; lia|].
  destruct e; cbn [poll];
    try apply IH; try apply (IH loop (set_isInstanceRunnig false w)).
  - destruct loop as [i|]; [destruct (Nat.ltb_spec (S i) 10)|].
    + etransitivity; [apply IH|]. rewrite !requests_emit. cbn. lia.
    + etransitivity; [apply IH|]. rewrite requests_emit. cbn. lia.
    + apply IH.
  - unfold requests. cbn. lia.
Qed.

Lemma ensureUriAvailable_requests (uri : URI) (w : World) :
  (requests (snd (ensureUriAvailable uri w)) <= requests w + 10)%nat.
Proof.
  unfold ensureUriAvailable. etransitivity; [apply poll_requests|].
  cbn [inbox emit]. rewrite !requests_emit. cbn. lia.
Qed.

(** *** The liveness probe, as a whole *)

Lemma ensureUriAvailable_never_rejects (uri : URI) (w : World) (r : Reason) :
  fst (ensureUriAvailable uri w) <> Rejected r.
Proof. unfold ensureUriAvailable. apply poll_never_rejects. Qed.

Lemma ensureUriAvailable_silent (uri : URI) (w : World) :
  ~ In HttpResponse (inbox w) -> fst (ensureUriAvailable uri w) = Pending.
Proof. intros Hno. unfold ensureUriAvailable. apply poll_silent. exact Hno. Qed.

Lemma ensureUriAvailable_first_response (uri : URI) (w : World)
    (consumed post : list LoopEvent) :
  inbox w = (consumed ++ HttpResponse :: post)%list ->
  ~ In HttpResponse consumed ->
  fst (ensureUriAvailable uri w) = Fulfilled tt
  /\ inbox (snd (ensureUriAvailable uri w)) = post.
Proof.
  intros Hsplit Hno. unfold ensureUriAvailable. cbn [inbox emit].
  rewrite Hsplit. clear Hsplit.
  generalize (emit (SetTimeout 1000) (emit (HttpGet (uri_toString uri)) w)).
  generalize (Some 0%nat).
  induction consumed as [|e consumed IH]; intros loop w0; [cbn; auto|].
  assert (Hno' : ~ In HttpResponse consumed) by (cbn in Hno; tauto).
  destruct e; cbn [poll app]; try (apply IH; exact Hno').
  - destruct loop as [i|]; [destruct (S i <? 10)%nat|]; apply IH; exact Hno'.
  - exfalso. apply Hno. left. reflexivity.
Qed.

(** *** The phases of [run] put together *)

Lemma runHostedPluginTheiaInstance_unfold (os : Os) (file : string)
    (args : list string) (options : SpawnOptions) (w : World) :
  runHostedPluginTheiaInstance os (file :: args) options w
  = await_started (inbox w) (spawned os file args options w).
Proof. reflexivity. Qed.

Lemma run_unfold (v : Variant) (os : Os) (pluginUri : URI) (port : option Z)
    (w : World) :
  isRunning w = false -> uri_scheme pluginUri = "file" ->
  run v os pluginUri port w
  = (let/a command := getStartCommand v os port in
     let/a started := runHostedPluginTheiaInstance os command
                        (shallow_copy (PROCESS_OPTIONS w)) in
     let/a uri := postProcessInstanceUri v started in
     perform (set_instanceUri uri) ;;;
     ensureUriAvailable uri ;;;
     fun w => (Fulfilled (instanceUri (this w)), w)) (prepared pluginUri w).
Proof.
  unfold isRunning, run. intros -> ->. rewrite String.eqb_refl. reflexivity.
Qed.

Lemma run_fulfilled (v : Variant) (os : Os) (pluginUri : URI)
    (port : option Z) (w : World) (x : option URI) :
  fst (run v os pluginUri port w) = Fulfilled x ->
  isRunning w = false /\ uri_scheme pluginUri = "file"
  /\ exists args w1 started w2 uri,
       getStartCommand v os port (prepared pluginUri w)
       = (Fulfilled ("yarn" :: args), w1)
       /\ await_started (inbox w1)
            (spawned os "yarn" args (shallow_copy (PROCESS_OPTIONS w)) w1)
          = (Fulfilled started, w2)
       /\ fst (postProcessInstanceUri v started w2) = Fulfilled uri
       /\ fst (ensureUriAvailable uri (set_instanceUri uri w2)) = Fulfilled tt
       /\ snd (run v os pluginUri port w)
          = snd (ensureUriAvailable uri (set_instanceUri uri w2))
       /\ x = Some uri.
Proof.
  intros Hrun.
  assert (Hidle : isRunning w = false).
  { unfold isRunning. unfold run in Hrun.
    destruct (isInstanceRunnig (this w)); [discriminate Hrun | reflexivity]. }
  assert (Hfile : uri_scheme pluginUri = "file").
  { unfold run in Hrun. unfold isRunning in Hidle. rewrite Hidle in Hrun.
    destruct (String.eqb_spec (uri_scheme pluginUri) "file");
      [assumption | discriminate Hrun]. }
  split; [exact Hidle|]. split; [exact Hfile|].
  rewrite (run_unfold v os pluginUri port w Hidle Hfile) in Hrun |- *.
  unfold await in Hrun |- *.
  pose proof (getStartCommand_frame v os port (prepared pluginUri w))
    as (_ & _ & _ & _ & _ & _ & Hyarn).
  destruct (getStartCommand v os port (prepared pluginUri w))
    as [[command | r |] w1] eqn:Hcmd; try discriminate Hrun.
  destruct (Hyarn command eq_refl) as [args ->].
  rewrite runHostedPluginTheiaInstance_unfold in Hrun |- *.
  destruct (await_started (inbox w1)
              (spawned os "yarn" args (shallow_copy (PROCESS_OPTIONS w)) w1))
    as [[started | r |] w2] eqn:Hstart; try discriminate Hrun.
  destruct (postProcessInstanceUri v started w2) as [[uri | r |] w2'] eqn:Hpost;
    try discriminate Hrun.
  assert (w2' = w2) as ->.
  { unfold postProcessInstanceUri in Hpost. destruct v; now inversion Hpost. }
  unfold perform in Hrun |- *.
  pose proof (poll_frame uri (inbox (emit (SetTimeout 1000)
                 (emit (HttpGet (uri_toString uri)) (set_instanceUri uri w2))))
                (Some 0%nat)
                (emit (SetTimeout 1000)
                   (emit (HttpGet (uri_toString uri)) (set_instanceUri uri w2))))
    as (_ & _ & Huri).
  fold (ensureUriAvailable uri (set_instanceUri uri w2)) in Huri.
  destruct (ensureUriAvailable uri (set_instanceUri uri w2))
    as [[[] | r |] w4] eqn:Hpoll; try discriminate Hrun.
  cbn [fst snd] in Hrun, Huri |- *. injection Hrun as <-.
  exists args, w1, started, w2, uri. rewrite Hpost, Hpoll.
  repeat split; auto.
Qed.

Lemma inbox_prepared (pluginUri : URI) (w : World) :
  inbox (prepared pluginUri w) = inbox w.
Proof. reflexivity. Qed.

Lemma validatePort_heap (os : Os) (p : Z) (h : gmap nat (gmap string string))
    (w : World) :
  validatePort os p (with_heap h w)
  = (fst (validatePort os p w), with_heap h (snd (validatePort os p w))).
Proof.
  unfold validatePort, await, isPortFree, pause, perform, resolve, reject.
  destruct ((p <? 1)%Z || (p >? 65535)%Z)%bool; [reflexivity|].
  cbn [probes emit with_probes with_heap].
  destruct (port_free os (probes w) p); [reflexivity|]. cbn.
  destruct (port_free os (S (probes w)) p); reflexivity.
Qed.

Lemma getStartCommand_heap (v : Variant) (os : Os) (port : option Z)
    (h : gmap nat (gmap string string)) (w : World) :
  getStartCommand v os port (with_heap h w)
  = (fst (getStartCommand v os port w),
     with_heap h (snd (getStartCommand v os port w))).
Proof.
  assert (Hbase : forall port,
    AbstractHostedPluginManager_getStartCommand os port (with_heap h w)
    = (fst (AbstractHostedPluginManager_getStartCommand os port w),
       with_heap h (snd (AbstractHostedPluginManager_getStartCommand os port w)))).
  { intros port0. unfold AbstractHostedPluginManager_getStartCommand.
    destruct (truthy_port port0) as [p|]; [|reflexivity].
    unfold await, perform, resolve. rewrite validatePort_heap.
    destruct (validatePort os p w) as [[[] | r |] w1]; reflexivity. }
  destruct v; unfold getStartCommand; [|apply Hbase].
  cbn [process_env with_heap]. apply Hbase.
Qed.

Lemma prepared_with_heap (pluginUri : URI) (w : World) :
  prepared pluginUri w = with_heap (heap (prepared pluginUri w)) w.
Proof. reflexivity. Qed.

(** *** Post-processing *)

Lemma processUris_pure (fs : list (URI -> URI)) (uri : URI) :
  processUris (map (fun f u => Fulfilled (f u)) fs) uri
  = Fulfilled (fold_left (fun acc f => f acc) fs uri).
Proof.
  revert uri. induction fs as [|f fs IH]; intros uri; [reflexivity|].
  cbn. apply IH.
Qed.

(** C7: the endpoint [run] of a [NodeHostedPluginRunner] returns is the
    URI captured from the first stdout chunk matching the readiness
    pattern, to which the registered post-processors have been applied one
    after the other in registration order, the first registered first.
    This is so whenever [run] returns an endpoint; and [run] does return
    that endpoint when the manager is idle, the location has the file
    scheme, the start command is built, the readiness chunk comes before
    the start timer and a response to the probe comes after it. *)
Theorem post_processors_in_registration_order (fs : list (URI -> URI))
    (os : Os) (pluginUri : URI) (port : option Z) (w : World) :
  let v := NodeHostedPluginRunner (map (fun f u => Fulfilled (f u)) fs) in
  (forall x,
     fst (run v os pluginUri port w) = Fulfilled x ->
     exists pre data post m1,
       inbox w = (pre ++ ChildStdout data :: post)%list
       /\ no_ready_line pre
       /\ THEIA_INSTANCE_REGEX_exec data = Some m1
       /\ x = Some (fold_left (fun acc f => f acc) fs (new_URI m1)))
  /\ (forall command pre data m1 mid post,
        isRunning w = false ->
        uri_scheme pluginUri = "file" ->
        fst (getStartCommand v os port w) = Fulfilled command ->
        inbox w = (pre ++ ChildStdout data :: mid ++ HttpResponse :: post)%list ->
        no_ready_line pre ->
        ~ In StartupTimeout pre ->
        THEIA_INSTANCE_REGEX_exec data = Some m1 ->
        ~ In HttpResponse mid ->
        fst (run v os pluginUri port w)
        = Fulfilled (Some (fold_left (fun acc f => f acc) fs (new_URI m1)))).
Proof.
  intros v. split.
  - intros x Hrun.
    destruct (run_fulfilled _ _ _ _ _ _ Hrun)
      as (_ & _ & args & w1 & started & w2 & uri
          & Hcmd & Hstart & Hpost & _ & _ & ->).
    pose proof (getStartCommand_frame v os port (prepared pluginUri w))
      as (_ & Hinbox & _).
    rewrite Hcmd in Hinbox. cbn [snd] in Hinbox.
    rewrite inbox_prepared in Hinbox.
    assert (Hful : fst (await_started (inbox w1)
                          (spawned os "yarn" args
                             (shallow_copy (PROCESS_OPTIONS w)) w1))
                   = Fulfilled started) by (rewrite Hstart; reflexivity).
    destruct (await_started_fulfilled _ _ _ Hful)
      as (pre & data & post & m1 & Hsplit & Hno & Hm & -> & _).
    exists pre, data, post, m1. rewrite <- Hinbox.
    repeat split; auto.
    cbn in Hpost. rewrite processUris_pure in Hpost.
    injection Hpost as <-. reflexivity.
  - intros command pre data m1 mid post Hidle Hfile Hcmd Hinbox Hno Htimer
      Hm Hmid.
    rewrite (run_unfold v os pluginUri port w Hidle Hfile).
    rewrite prepared_with_heap. unfold await.
    rewrite getStartCommand_heap, Hcmd.
    pose proof (getStartCommand_frame v os port w)
      as (_ & Hin & _ & _ & _ & _ & Hyarn).
    destruct (Hyarn command Hcmd) as [args ->].
    rewrite runHostedPluginTheiaInstance_unfold.
    cbn [inbox with_heap]. rewrite Hin, Hinbox.
    set (w1 := spawned os "yarn" args (shallow_copy (PROCESS_OPTIONS w))
                 (with_heap (heap (prepared pluginUri w))
                    (snd (getStartCommand v os port w)))).
    destruct (await_started_ready pre (mid ++ HttpResponse :: post) data m1
                w1 Hno Htimer Hm) as (Hres & Hrest).
    destruct (await_started (pre ++ ChildStdout data :: mid
                               ++ HttpResponse :: post) w1)
      as [[u | r |] w2]; cbn [fst snd] in *; try discriminate Hres.
    injection Hres as ->.
    unfold v at 1. cbn [postProcessInstanceUri]. rewrite processUris_pure.
    unfold perform.
    set (uri := fold_left (fun acc f => f acc) fs (new_URI m1)).
    assert (Hbox : inbox (set_instanceUri uri w2)
                   = (mid ++ HttpResponse :: post)%list) by exact Hrest.
    destruct (ensureUriAvailable_first_response uri (set_instanceUri uri w2)
                mid post Hbox Hmid) as (Hfull & _).
    pose proof (poll_frame uri
                  (inbox (emit (SetTimeout 1000)
                     (emit (HttpGet (uri_toString uri))
                        (set_instanceUri uri w2))))
                  (Some 0%nat)
                  (emit (SetTimeout 1000)
                     (emit (HttpGet (uri_toString uri))
                        (set_instanceUri uri w2))))
      as (_ & _ & Huri).
    fold (ensureUriAvailable uri (set_instanceUri uri w2)) in Huri.
    destruct (ensureUriAvailable uri (set_instanceUri uri w2))
      as [[[] | r |] w4]; cbn [fst snd] in *; try discriminate Hfull.
    rewrite Huri. reflexivity.
Qed.

(** *** The start timer *)

(** C4: in every [run] that gets as far as spawning the child (the manager
    was idle, the location has the file scheme and the start command was
    built), if no stdout chunk matches the readiness pattern before the
    start timer fires, then the timer, armed for thirty seconds, kills the
    child that was spawned, [isRunning()] is false afterwards, and the
    promise of [run] is rejected with the timeout reason. *)
Theorem startup_timeout (v : Variant) (os : Os) (pluginUri : URI)
    (port : option Z) (w : World) (command : list string)
    (pre post : list LoopEvent) :
  isRunning w = false ->
  uri_scheme pluginUri = "file" ->
  fst (getStartCommand v os port w) = Fulfilled command ->
  inbox w = (pre ++ StartupTimeout :: post)%list ->
  no_ready_line pre ->
  ~ In StartupTimeout pre ->
  let r := run v os pluginUri port w in
  fst r = Rejected StartupTimeoutError
  /\ isRunning (snd r) = false
  /\ HOSTED_INSTANCE_START_TIMEOUT_MS = 30000
  /\ exists file args,
       command = file :: args
       /\ effects (snd r)
          = (effects (snd (getStartCommand v os port w))
             ++ [Spawn file args (cwd (PROCESS_OPTIONS w))
                   (env_of (PROCESS_OPTIONS w) (prepared pluginUri w))
                   (child_pid os);
                 SetTimeout HOSTED_INSTANCE_START_TIMEOUT_MS;
                 Kill (child_pid os)])%list.
Proof.
  intros Hidle Hfile Hcmd Hinbox Hno Htimer r. subst r.
  rewrite (run_unfold v os pluginUri port w Hidle Hfile).
  rewrite prepared_with_heap. unfold await.
  rewrite getStartCommand_heap, Hcmd.
  pose proof (getStartCommand_frame v os port w)
    as (_ & Hin & _ & _ & _ & _ & Hyarn).
  destruct (Hyarn command Hcmd) as [args ->].
  rewrite runHostedPluginTheiaInstance_unfold.
  cbn [inbox with_heap]. rewrite Hin, Hinbox.
  set (w1 := spawned os "yarn" args (shallow_copy (PROCESS_OPTIONS w))
               (with_heap (heap (prepared pluginUri w))
                  (snd (getStartCommand v os port w)))).
  assert (Hpid : hostedInstanceProcess (this w1) = Some (child_pid os))
    by reflexivity.
  destruct (await_started_timeout pre post w1 (child_pid os) Hno Htimer Hpid)
    as (Hres & Hflag & Heff & _).
  destruct (await_started (pre ++ StartupTimeout :: post) w1)
    as [[u | r |] w2]; cbn [fst snd] in *; try discriminate Hres.
  injection Hres as ->.
  repeat split; auto.
  exists "yarn", args. split; [reflexivity|].
  rewrite Heff. subst w1. cbn [effects spawned emit set_isInstanceRunnig
    set_hostedInstanceProcess with_this with_heap].
  rewrite <- !app_assoc. reflexivity.
Qed.

(** *** Calls other than [run] *)

Lemma terminate_frame (os : Os) (w : World) :
  this (snd (terminate os w)) = this w
  /\ heap (snd (terminate os w)) = heap w
  /\ PROCESS_OPTIONS (snd (terminate os w)) = PROCESS_OPTIONS w.
Proof.
  unfold terminate. destruct (isInstanceRunnig (this w)); [|cbn; auto].
  destruct (hostedInstanceProcess (this w)); cbn; auto.
Qed.

Lemma isPluginValid_frame (os : Os) (uri : URI) (w : World) :
  this (snd (isPluginValid os uri w)) = this w
  /\ heap (snd (isPluginValid os uri w)) = heap w
  /\ PROCESS_OPTIONS (snd (isPluginValid os uri w)) = PROCESS_OPTIONS w
  /\ effects (snd (isPluginValid os uri w)) = effects w
  /\ inbox (snd (isPluginValid os uri w)) = inbox w.
Proof.
  unfold isPluginValid, require.
  destruct (files os !! (uri_path uri +:+ "/package.json")) as [f|];
    [|cbn; auto].
  destruct (require_cache w !! (uri_path uri +:+ "/package.json"))
    as [c|]; [|destruct f as [c|]; [|cbn; auto]];
    (destruct (get_prop (Some c) "theiaPlugin") as [plugin|]; [|cbn; auto];
     destruct (truthy plugin); [|cbn; auto];
     destruct (get_prop plugin "frontend") as [frontend|]; [|cbn; auto];
     destruct (truthy frontend); [cbn; auto|];
     destruct (get_prop plugin "backend"); cbn; auto).
Qed.

Lemma dispatch_frame (e : LoopEvent) (w : World) :
  heap (dispatch e w) = heap w
  /\ PROCESS_OPTIONS (dispatch e w) = PROCESS_OPTIONS w
  /\ (isRunning w = false -> isRunning (dispatch e w) = false).
Proof.
  unfold dispatch, isRunning.
  destruct e, (hostedInstanceProcess (this w)); cbn; auto.
Qed.

Lemma call_frame (c : Call) (w : World) :
  heap (call c w) = heap w
  /\ PROCESS_OPTIONS (call c w) = PROCESS_OPTIONS w
  /\ (isRunning w = false -> isRunning (call c w) = false).
Proof.
  destruct c as [os | | os uri | e]; cbn [call].
  - destruct (terminate_frame os w) as (Ht & Hh & Ho).
    unfold isRunning. rewrite Ht. auto.
  - auto.
  - destruct (isPluginValid_frame os uri w) as (Ht & Hh & Ho & _).
    unfold isRunning. rewrite Ht. auto.
  - apply dispatch_frame.
Qed.

Lemma replay_frame (calls : list Call) (w : World) :
  heap (replay calls w) = heap w
  /\ PROCESS_OPTIONS (replay calls w) = PROCESS_OPTIONS w
  /\ (isRunning w = false -> isRunning (replay calls w) = false).
Proof.
  unfold replay. revert w.
  induction calls as [|c calls IH]; intros w; [cbn; auto|].
  cbn [fold_left].
  destruct (IH (call c w)) as (Hh & Ho & Hf).
  destruct (call_frame c w) as (Hh' & Ho' & Hf').
  rewrite Hh, Ho. auto.
Qed.

(** *** The running flag *)

Lemma child_alive_app (a b : list LoopEvent) :
  child_alive (a ++ b) -> child_alive a /\ child_alive b.
Proof.
  unfold child_alive. rewrite !in_app_iff. tauto.
Qed.

Lemma run_fulfilled_flag (v : Variant) (os : Os) (pluginUri : URI)
    (port : option Z) (w : World) (x : option URI) :
  fst (run v os pluginUri port w) = Fulfilled x ->
  exists consumed,
    inbox w = (consumed ++ inbox (snd (run v os pluginUri port w)))%list
    /\ (child_alive consumed ->
        isRunning (snd (run v os pluginUri port w)) = true).
Proof.
  intros Hrun.
  destruct (run_fulfilled _ _ _ _ _ _ Hrun)
    as (_ & _ & args & w1 & started & w2 & uri
        & Hcmd & Hstart & _ & Hpoll & -> & _).
  pose proof (getStartCommand_frame v os port (prepared pluginUri w))
    as (_ & Hinbox & _).
  rewrite Hcmd in Hinbox. cbn [snd] in Hinbox.
  rewrite inbox_prepared in Hinbox.
  assert (Hful : fst (await_started (inbox w1)
                        (spawned os "yarn" args
                           (shallow_copy (PROCESS_OPTIONS w)) w1))
                 = Fulfilled started) by (rewrite Hstart; reflexivity).
  destruct (await_started_fulfilled _ _ _ Hful)
    as (pre & data & post & m1 & Hsplit & _ & _ & _ & Hpost & _ & Hflag).
  rewrite Hstart in Hpost, Hflag. cbn [snd] in Hpost, Hflag.
  unfold ensureUriAvailable in Hpoll |- *.
  cbn [inbox emit set_instanceUri with_this] in Hpoll |- *.
  destruct (poll_fulfilled _ _ _ _ Hpoll)
    as (consumed & post' & Hsplit' & _ & Hrest & Hflag').
  exists (pre ++ ChildStdout data :: consumed ++ [HttpResponse])%list.
  split.
  - rewrite <- Hinbox, Hsplit, Hrest, <- Hpost, Hsplit'.
    rewrite <- !app_assoc. cbn. rewrite <- !app_assoc. reflexivity.
  - intros Halive.
    destruct (child_alive_app _ _ Halive) as [Hpre Htail].
    assert (Hcons : child_alive consumed).
    { change (ChildStdout data :: consumed ++ [HttpResponse])%list
        with ([ChildStdout data] ++ consumed ++ [HttpResponse])%list in Htail.
      destruct (child_alive_app _ _ Htail) as [_ Htail'].
      destruct (child_alive_app _ _ Htail') as [Hc _]. exact Hc. }
    unfold isRunning. rewrite (Hflag' Hcons).
    cbn [this emit set_instanceUri with_this isInstanceRunnig].
    rewrite (Hflag Hpre). reflexivity.
Qed.

(** C2, as the code has it: [isRunning()] is false on a new manager and
    stays false whatever is called or delivered before the first [run]; it
    is true after a [run] that was fulfilled, unless an exit or error event
    of the child was delivered before; [terminate] leaves it as it is; the
    exit and error events of a child clear it. *)
Theorem isRunning_lifecycle :
  (forall dir penv events calls,
     isRunning (replay calls (module_load dir penv events)) = false)
  /\ (forall v os pluginUri port w x,
        fst (run v os pluginUri port w) = Fulfilled x ->
        exists consumed,
          inbox w = (consumed ++ inbox (snd (run v os pluginUri port w)))%list
          /\ (child_alive consumed ->
              isRunning (snd (run v os pluginUri port w)) = true))
  /\ (forall os w, isRunning (snd (terminate os w)) = isRunning w)
  /\ (forall e w,
        e = ChildExit \/ e = ChildError ->
        hostedInstanceProcess (this w) <> None ->
        isRunning (dispatch e w) = false).
Proof.
  split; [intros; apply replay_frame; reflexivity|].
  split; [apply run_fulfilled_flag|]. split.
  - intros os w. unfold terminate, isRunning.
    destruct (isInstanceRunnig (this w)) eqn:Hflag; [|cbn; auto].
    destruct (hostedInstanceProcess (this w)); cbn; auto.
  - intros e w [-> | ->] Hchild; unfold dispatch, isRunning;
      destruct (hostedInstanceProcess (this w)); try contradiction;
      reflexivity.
Qed.

(** *** The cached endpoint *)






(** *** Termination *)

(** C1, as the code has it: on a running manager with a child, [terminate]
    asks [ps-tree] for the descendants of the child's pid and runs [kill]
    once, with the signal name followed by the pid of every row that came
    back and by nothing else; its promise is fulfilled and the manager's
    fields are untouched. *)
Theorem terminate_signals_descendants (os : Os) (w : World) (pid : Z) :
  isRunning w = true ->
  hostedInstanceProcess (this w) = Some pid ->
  let children := processTree os pid in
  let args := "SIGTERM" :: map PID children in
  fst (terminate os w) = Normal (Fulfilled tt)
  /\ effects (snd (terminate os w))
     = (effects w ++ [PsTree pid; SpawnSync "kill" args])%list
  /\ (forall p, In p children -> In (PID p) args)
  /\ (forall s, In s args <-> s = "SIGTERM" \/ exists p, In p children /\ PID p = s)
  /\ this (snd (terminate os w)) = this w.
Proof.
  intros Hflag Hpid children args. unfold isRunning in Hflag.
  unfold terminate. rewrite Hflag, Hpid. cbn [fst snd effects emit this].
  rewrite <- app_assoc. repeat split; auto.
  - intros p Hin. right. apply in_map. exact Hin.
  - intros [<- | Hin]; [left; reflexivity|].
    right. apply in_map_iff in Hin as (p & Hp & Hin). eauto.
  - intros [-> | (p & Hin & <-)]; [left; reflexivity|].
    right. apply in_map. exact Hin.
Qed.

(** *** The launch environment *)

Lemma run_module_state (v : Variant) (os : Os) (pluginUri : URI)
    (port : option Z) (w : World) :
  isRunning w = false -> uri_scheme pluginUri = "file" ->
  module_state (snd (run v os pluginUri port w))
  = module_state (prepared pluginUri w).
Proof.
  intros Hidle Hfile.
  rewrite (run_unfold v os pluginUri port w Hidle Hfile). unfold await.
  pose proof (getStartCommand_frame v os port (prepared pluginUri w))
    as (Hmod & _ & _ & _ & _ & _ & Hyarn).
  destruct (getStartCommand v os port (prepared pluginUri w))
    as [[command | r |] w1]; cbn [fst snd] in *; try exact Hmod.
  destruct (Hyarn command eq_refl) as [args ->].
  rewrite runHostedPluginTheiaInstance_unfold.
  pose proof (await_started_frame (inbox w1)
                (spawned os "yarn" args (shallow_copy (PROCESS_OPTIONS w)) w1))
    as (Hmod2 & _).
  destruct (await_started (inbox w1)
              (spawned os "yarn" args (shallow_copy (PROCESS_OPTIONS w)) w1))
    as [[started | r |] w2]; cbn [fst snd] in *;
    try (rewrite Hmod2; exact Hmod).
  assert (Hpost : snd (postProcessInstanceUri v started w2) = w2)
    by (destruct v; reflexivity).
  destruct (postProcessInstanceUri v started w2) as [[uri | r |] w2'];
    cbn [fst snd] in *; subst w2'; try (rewrite Hmod2; exact Hmod).
  unfold perform, ensureUriAvailable.
  pose proof (poll_frame uri (inbox (emit (SetTimeout 1000)
                 (emit (HttpGet (uri_toString uri)) (set_instanceUri uri w2))))
                (Some 0%nat)
                (emit (SetTimeout 1000)
                   (emit (HttpGet (uri_toString uri)) (set_instanceUri uri w2))))
    as (Hmod3 & _).
  destruct (poll uri (Some 0%nat)
              (inbox (emit (SetTimeout 1000)
                 (emit (HttpGet (uri_toString uri)) (set_instanceUri uri w2))))
              (emit (SetTimeout 1000)
                 (emit (HttpGet (uri_toString uri)) (set_instanceUri uri w2))))
    as [[[] | r |] w4]; cbn [fst snd] in *;
    rewrite Hmod3; etransitivity; try exact Hmod; exact Hmod2.
Qed.

Lemma env_of_prepared (pluginUri : URI) (w : World) :
  env_of (PROCESS_OPTIONS w) (prepared pluginUri w)
  = <["THEIA_PLUGINS" := ""]>
      (<["HOSTED_PLUGIN" := uri_path pluginUri]> (env_of (PROCESS_OPTIONS w) w)).
Proof.
  unfold prepared, env_write, env_of, shallow_copy. cbn.
  rewrite !lookup_insert_eq. cbn. reflexivity.
Qed.

(** *** Plugin validity *)

Lemma verdict_declares (v : json) : verdict v = true <-> declares_plugin v.
Proof.
  unfold declares_plugin. split.
  - destruct v as [| | | | |props]; try discriminate. cbn.
    destruct (assoc "theiaPlugin" props) as [[| | | | |plugin]|] eqn:Hp;
      try discriminate.
    intros Hv. apply orb_true_iff in Hv as [Hf | Hb].
    + destruct (assoc "frontend" plugin) as [x|] eqn:Hx; [|discriminate].
      exists props, plugin, x. auto.
    + destruct (assoc "backend" plugin) as [x|] eqn:Hx; [|discriminate].
      exists props, plugin, x. auto.
  - intros (props & plugin & x & -> & Hp & Hx & Ht). cbn. rewrite Hp.
    apply orb_true_iff. destruct Hx as [-> | ->]; auto.
Qed.

Lemma isPluginValid_loaded (os : Os) (uri : URI) (w : World) (v : json) :
  files os !! (uri_path uri +:+ "/package.json") = Some (JsonText v) ->
  require_cache w !! (uri_path uri +:+ "/package.json") = None ->
  v <> JNull ->
  isPluginValid os uri w
  = (Normal (verdict v),
     with_require_cache
       (<[uri_path uri +:+ "/package.json" := v]> (require_cache w)) w).
Proof.
  intros Hfile Hcache Hnull. unfold isPluginValid, require.
  rewrite Hfile, Hcache.
  destruct v as [| | | | |props]; try reflexivity; [contradiction|].
  cbn [get_prop verdict].
  destruct (assoc "theiaPlugin" props) as [[| b | n | s | items |plugin]|];
    try reflexivity.
  - destruct b; reflexivity.
  - cbn. destruct (Z.eqb n 0); reflexivity.
  - cbn. destruct (String.eqb s ""); reflexivity.
  - cbn [truthy get_prop].
    destruct (truthy (assoc "frontend" plugin)); reflexivity.
Qed.

(** C6, as the code has it: with no file at the manifest path the result is
    false, nothing is thrown and nothing changes. With a manifest that is
    loaded for the first time and is not [null], the result is true exactly
    when the manifest is an object whose [theiaPlugin] is an object with a
    truthy [frontend] or [backend] value, and false otherwise; the call
    adds the manifest to Node's module cache and touches neither the
    manager, nor the environment, nor the outside world. *)
Theorem isPluginValid_first_load (os : Os) (uri : URI) (w : World) :
  (files os !! (uri_path uri +:+ "/package.json") = None ->
     isPluginValid os uri w = (Normal false, w))
  /\ (forall v,
        files os !! (uri_path uri +:+ "/package.json") = Some (JsonText v) ->
        require_cache w !! (uri_path uri +:+ "/package.json") = None ->
        v <> JNull ->
        (fst (isPluginValid os uri w) = Normal true <-> declares_plugin v)
        /\ (fst (isPluginValid os uri w) = Normal false <-> ~ declares_plugin v)
        /\ snd (isPluginValid os uri w)
           = with_require_cache
               (<[uri_path uri +:+ "/package.json" := v]> (require_cache w)) w).
Proof.
  split.
  - intros Hnone. unfold isPluginValid. rewrite Hnone. reflexivity.
  - intros v Hfile Hcache Hnull.
    rewrite (isPluginValid_loaded os uri w v Hfile Hcache Hnull).
    cbn [fst snd]. rewrite <- verdict_declares.
    destruct (verdict v); repeat split; try congruence; auto.
Qed.

End Properties.

(* ===================================================================== *)
(** ** The properties on concrete runs *)
(* ===================================================================== *)

Section Concrete.
#[local] Existing Instance Demo.platform.

Example theia_line_matches :
  THEIA_INSTANCE_REGEX_exec
    "root INFO Theia app listening on http://localhost:3030. [] "
  = Some "http://localhost:3030".
Proof. reflexivity. Qed.

Example two_processors_append_in_order :
  fst (run (NodeHostedPluginRunner
              (map (fun f u => Fulfilled (f u))
                 [Demo.append "/a"; Demo.append "/b"]))
         Demo.quiet_os Demo.plugin None (Demo.fresh [Demo.ready; HttpResponse]))
  = Fulfilled (Some "http://localhost:3030/a/b").
Proof. vm_compute. reflexivity. Qed.

Lemma run_while_running_rejects_witness :
  run ElectronNodeHostedPluginRunner Demo.quiet_os Demo.plugin None Demo.started
  = (Rejected AlreadyRunningError, Demo.started).
Proof.
  apply (run_while_running_rejects ElectronNodeHostedPluginRunner
           Demo.quiet_os Demo.plugin None Demo.started).
  vm_compute. reflexivity.
Defined.



Example getInstanceURI_after_run :
  getInstanceURI Demo.started = Normal (Some "http://localhost:3030").
Proof. vm_compute. reflexivity. Qed.



(** A requested port of [0] reaches neither [validatePort] nor the command
    line of the base class. *)
Example port_zero_is_not_validated :
  let r := run ElectronNodeHostedPluginRunner (Demo.os true [] ∅) Demo.plugin
             (Some 0) (Demo.fresh [StartupTimeout]) in
  fst r = Rejected StartupTimeoutError
  /\ exists e, effects (snd r)
               = [Spawn "yarn" ["theia"; "start"] "/work" e 100;
                  SetTimeout 30000; Kill 100].
Proof. vm_compute. eauto. Qed.

Example bound_port_is_probed_twice :
  let r := run ElectronNodeHostedPluginRunner (Demo.os true [] ∅) Demo.plugin
             (Some 8080) (Demo.fresh []) in
  fst r = Rejected (PortInUseError 8080)
  /\ effects (snd r)
     = [ServerListen 8080 "0.0.0.0"; SetTimeout 1000;
        ServerListen 8080 "0.0.0.0"].
Proof. vm_compute. auto. Qed.

Lemma post_processors_in_registration_order_witness :
  fst (run (NodeHostedPluginRunner
              (map (fun f u => Fulfilled (f u))
                 [Demo.append "/a"; Demo.append "/b"]))
         Demo.quiet_os Demo.plugin None
         (Demo.fresh [ChildStdout "starting"; Demo.ready; HttpResponse]))
  = Fulfilled (Some (fold_left (fun acc f => f acc)
                       [Demo.append "/a"; Demo.append "/b"]
                       (new_URI "http://localhost:3030"))).
Proof.
  apply (proj2 (post_processors_in_registration_order
                  [Demo.append "/a"; Demo.append "/b"] Demo.quiet_os
                  Demo.plugin None
                  (Demo.fresh [ChildStdout "starting"; Demo.ready;
                               HttpResponse]))
           ["yarn"; "theia"; "start"; "--port=3030"]
           [ChildStdout "starting"]
           "root INFO Theia app listening on http://localhost:3030. [] "
           "http://localhost:3030" [] []).
  - reflexivity.
  - reflexivity.
  - reflexivity.
  - reflexivity.
  - intros data [Hd | []]. injection Hd as <-. reflexivity.
  - intros [Hd | []]. discriminate Hd.
  - reflexivity.
  - intros [].
Defined.

Lemma startup_timeout_witness :
  let r := run ElectronNodeHostedPluginRunner Demo.quiet_os Demo.plugin None
             (Demo.fresh [ChildStdout "starting"; ChildExit; StartupTimeout]) in
  fst r = Rejected StartupTimeoutError
  /\ isRunning (snd r) = false
  /\ HOSTED_INSTANCE_START_TIMEOUT_MS = 30000
  /\ exists file args,
       ["yarn"; "theia"; "start"] = file :: args
       /\ effects (snd r)
          = (effects (snd (getStartCommand ElectronNodeHostedPluginRunner
                             Demo.quiet_os None
                             (Demo.fresh [ChildStdout "starting"; ChildExit;
                                          StartupTimeout])))
             ++ [Spawn file args "/work"
                   (env_of (PROCESS_OPTIONS (Demo.fresh []))
                      (prepared Demo.plugin (Demo.fresh [])))
                   100;
                 SetTimeout HOSTED_INSTANCE_START_TIMEOUT_MS;
                 Kill 100])%list.
Proof.
  apply (startup_timeout ElectronNodeHostedPluginRunner Demo.quiet_os
           Demo.plugin None
           (Demo.fresh [ChildStdout "starting"; ChildExit; StartupTimeout])
           ["yarn"; "theia"; "start"]
           [ChildStdout "starting"; ChildExit] []).
  - reflexivity.
  - reflexivity.
  - reflexivity.
  - reflexivity.
  - intros data [Hd | [Hd | []]]; [|discriminate Hd].
    injection Hd as <-. reflexivity.
  - intros [Hd | [Hd | []]]; discriminate Hd.
Defined.

(** C2 as stated fails: after a launch that went well and a [terminate]
    whose promise is fulfilled, [isRunning()] still answers true. *)
Lemma terminate_leaves_isRunning_true :
  isRunning (Demo.fresh [Demo.ready; HttpResponse]) = false
  /\ fst (run ElectronNodeHostedPluginRunner Demo.quiet_os Demo.plugin None
            (Demo.fresh [Demo.ready; HttpResponse]))
     = Fulfilled (Some "http://localhost:3030")
  /\ isRunning Demo.started = true
  /\ fst (terminate (Demo.os false Demo.rows ∅) Demo.started)
     = Normal (Fulfilled tt)
  /\ isRunning (snd (terminate (Demo.os false Demo.rows ∅) Demo.started)) = true.
Proof. vm_compute. auto. Qed.

(** A child that exits after its readiness line and before the response
    to the probe is read: [run] is fulfilled and [isRunning()] is false. *)
Example exit_before_response :
  let r := run ElectronNodeHostedPluginRunner Demo.quiet_os Demo.plugin None
             (Demo.fresh [Demo.ready; ChildExit; HttpResponse]) in
  fst r = Fulfilled (Some "http://localhost:3030")
  /\ isRunning (snd r) = false.
Proof. vm_compute. auto. Qed.

Lemma isRunning_lifecycle_witness :
  (exists consumed,
     inbox (Demo.fresh [Demo.ready; HttpResponse; ChildExit])
     = (consumed
        ++ inbox (snd (run ElectronNodeHostedPluginRunner Demo.quiet_os
                         Demo.plugin None
                         (Demo.fresh [Demo.ready; HttpResponse; ChildExit]))))%list
     /\ (child_alive consumed ->
         isRunning (snd (run ElectronNodeHostedPluginRunner Demo.quiet_os
                           Demo.plugin None
                           (Demo.fresh [Demo.ready; HttpResponse; ChildExit])))
         = true))
  /\ isRunning (dispatch ChildExit Demo.started) = false.
Proof.
  split.
  - apply (proj1 (proj2 (@isRunning_lifecycle Demo.platform))
             ElectronNodeHostedPluginRunner Demo.quiet_os Demo.plugin None
             (Demo.fresh [Demo.ready; HttpResponse; ChildExit])
             (Some "http://localhost:3030")).
    vm_compute. reflexivity.
  - apply (proj2 (proj2 (proj2 (@isRunning_lifecycle Demo.platform)))
             ChildExit Demo.started).
    + left. reflexivity.
    + vm_compute. discriminate.
Defined.

(** C1 as stated fails: the child has pid 100 and two descendants; the one
    [kill] that [terminate] runs is given the descendants' pids 101 and
    102, not 100, and the child is not signalled in any other way. *)
Lemma terminate_does_not_signal_the_child :
  isRunning Demo.started = true
  /\ hostedInstanceProcess (this Demo.started) = Some 100
  /\ effects (snd (terminate (Demo.os false Demo.rows ∅) Demo.started))
     = (effects Demo.started
        ++ [PsTree 100; SpawnSync "kill" ["SIGTERM"; "101"; "102"]])%list
  /\ ~ In (pretty (100 : Z)) ["SIGTERM"; "101"; "102"]
  /\ ~ In (Kill 100)
          (effects (snd (terminate (Demo.os false Demo.rows ∅) Demo.started))).
Proof.
  split; [vm_compute; reflexivity|].
  split; [vm_compute; reflexivity|].
  split; [vm_compute; reflexivity|].
  split.
  - vm_compute. intros [Hd | [Hd | [Hd | []]]]; discriminate Hd.
  - vm_compute. intuition discriminate.
Qed.

Lemma terminate_signals_descendants_witness :
  fst (terminate (Demo.os false Demo.rows ∅) Demo.started)
  = Normal (Fulfilled tt)
  /\ In "102" ["SIGTERM"; "101"; "102"].
Proof.
  destruct (terminate_signals_descendants (Demo.os false Demo.rows ∅)
              Demo.started 100 eq_refl eq_refl) as (Hres & _ & Hall & _).
  split; [exact Hres|].
  apply (Hall {| PID := "102"; PPID := "101"; COMMAND := "node" |}).
  right. left. reflexivity.
Defined.

(** C6 as stated fails: the manifest exists and its contribution object
    contains a [frontend] entry, but the entry is the empty string and the
    answer is false. *)
Lemma empty_frontend_entry_is_not_valid :
  let os := Demo.os false [] {[ Demo.manifest_path := JsonText Demo.empty_frontend ]} in
  uri_path Demo.plugin +:+ "/package.json" = Demo.manifest_path
  /\ files os !! Demo.manifest_path = Some (JsonText Demo.empty_frontend)
  /\ contains_entry Demo.empty_frontend
  /\ fst (isPluginValid os Demo.plugin (Demo.fresh [])) = Normal false.
Proof.
  split; [reflexivity|]. split; [reflexivity|]. split; [|reflexivity].
  exists [("theiaPlugin", JObj [("frontend", JStr "")])],
         [("frontend", JStr "")], (JStr "").
  repeat split. left. reflexivity.
Qed.

(** A manifest that is [null] has neither entry, and the call throws. *)
Example null_manifest_throws :
  fst (isPluginValid
         (Demo.os false [] {[ Demo.manifest_path := JsonText JNull ]})
         Demo.plugin (Demo.fresh []))
  = Throw (ErrorObj "Cannot read property 'theiaPlugin' of null").
Proof. reflexivity. Qed.

(** A manifest that was loaded once is answered from the module cache, even
    after the file has changed. *)
Example cached_manifest_is_not_read_again :
  let before := Demo.os false [] {[ Demo.manifest_path := JsonText Demo.backend_main ]} in
  let after := Demo.os false [] {[ Demo.manifest_path := JsonText (JObj []) ]} in
  let w := snd (isPluginValid before Demo.plugin (Demo.fresh [])) in
  fst (isPluginValid before Demo.plugin (Demo.fresh [])) = Normal true
  /\ fst (isPluginValid after Demo.plugin (Demo.fresh [])) = Normal false
  /\ fst (isPluginValid after Demo.plugin w) = Normal true.
Proof. vm_compute. auto. Qed.

Lemma isPluginValid_first_load_witness :
  isPluginValid Demo.quiet_os Demo.plugin (Demo.fresh [])
  = (Normal false, Demo.fresh [])
  /\ fst (isPluginValid
            (Demo.os false [] {[ Demo.manifest_path := JsonText Demo.backend_main ]})
            Demo.plugin (Demo.fresh []))
     = Normal true.
Proof.
  split.
  - apply (proj1 (isPluginValid_first_load Demo.quiet_os Demo.plugin
                    (Demo.fresh []))).
    reflexivity.
  - apply (proj2 (isPluginValid_first_load
                    (Demo.os false [] {[ Demo.manifest_path := JsonText Demo.backend_main ]})
                    Demo.plugin (Demo.fresh []))
             Demo.backend_main).
    + reflexivity.
    + reflexivity.
    + discriminate.
    + exists [("theiaPlugin", JObj [("backend", JStr "main.js")])],
             [("backend", JStr "main.js")], (JStr "main.js").
      repeat split. right. reflexivity.
Defined.

(** A second launch overwrites [HOSTED_PLUGIN] before it spawns: its child
    is given the second path. *)
Example second_launch_overwrites :
  let w1 := snd (run ElectronNodeHostedPluginRunner (Demo.os true [] ∅)
                   Demo.plugin (Some 8080) (Demo.fresh [])) in
  let w2 := snd (run ElectronNodeHostedPluginRunner Demo.quiet_os
                   ("file:///home/q" : @URI Demo.platform) None
                   (with_inbox [Demo.ready; HttpResponse] w1)) in
  env_of (PROCESS_OPTIONS w1) w1 !! "HOSTED_PLUGIN" = Some "/home/p"
  /\ env_of (PROCESS_OPTIONS w2) w2 !! "HOSTED_PLUGIN" = Some "/home/q".
Proof. vm_compute. auto. Qed.

End Concrete.

(** C3: the liveness probe sends a GET, pauses for a second and sends the
    next, at most ten in all, and its promise is fulfilled by the first
    response. It is never rejected: when the tenth pause ends without a
    response, the error is thrown inside the asynchronous executor, where
    it rejects a promise nobody holds, and the promise [run] awaits stays
    pending. On the launch below, whose child prints the readiness line
    and then never answers, [run] is still pending after ten requests. *)
Theorem unreachable_endpoint_is_not_reported :
  (forall (P : Platform) (uri : URI) (w : World) (r : Reason),
      fst (ensureUriAvailable uri w) <> Rejected r)
  /\ (forall (P : Platform) (uri : URI) (w : World),
        (requests (snd (ensureUriAvailable uri w)) <= requests w + 10)%nat)
  /\ (forall (P : Platform) (uri : URI) (w : World) consumed post,
        inbox w = (consumed ++ HttpResponse :: post)%list ->
        ~ In HttpResponse consumed ->
        fst (ensureUriAvailable uri w) = Fulfilled tt)
  /\ (forall (P : Platform) (uri : URI) (w : World),
        ~ In HttpResponse (inbox w) ->
        fst (ensureUriAvailable uri w) = Pending)
  /\ (let r := run (P := Demo.platform) ElectronNodeHostedPluginRunner
                 Demo.quiet_os Demo.plugin None
                 (Demo.fresh (Demo.ready :: replicate 10 PauseElapsed)) in
      fst r = Pending
      /\ requests (snd r) = 10%nat
      /\ last (effects (snd r))
         = Some (UnhandledRejection
                   (UnreachableEndpointError "http://localhost:3030"))
      /\ inbox (snd r) = []).
Proof.
  split; [intros; apply ensureUriAvailable_never_rejects|].
  split; [intros; apply ensureUriAvailable_requests|].
  split; [intros P uri w consumed post Hsplit Hno;
          apply (ensureUriAvailable_first_response uri w consumed post Hsplit Hno)|].
  split; [intros; apply ensureUriAvailable_silent; assumption|].
  vm_compute. auto.
Qed.

Lemma unreachable_endpoint_is_not_reported_witness :
  fst (ensureUriAvailable (P := Demo.platform) "http://localhost:3030"
         (Demo.fresh (replicate 12 PauseElapsed)))
  = Pending.
Proof.
  apply (proj1 (proj2 (proj2 (proj2 unreachable_endpoint_is_not_reported)))
           Demo.platform).
  vm_compute. intuition discriminate.
Defined.

(* ===================================================================== *)
(** ** Further properties: the readiness pattern *)
(* ===================================================================== *)

Lemma strip_prefix_sound (p s r : string) :
  strip_prefix p s = Some r -> s = p +:+ r.
Proof.
  revert s. induction p as [|a p IH]; intros s; simpl.
  - intros [= ->]. reflexivity.
  - destruct s as [|b s]; [discriminate|].
    destruct (Ascii.eqb_spec a b) as [->|]; [|discriminate].
    intros Hs. rewrite (IH s Hs). reflexivity.
Qed.

Lemma strip_prefix_complete (p r : string) :
  strip_prefix p (p +:+ r) = Some r.
Proof.
  induction p as [|a p IH]; simpl; [reflexivity|].
  rewrite Ascii.eqb_refl. exact IH.
Qed.

Lemma match_group_sound (s g : string) :
  match_group s = Some g ->
  single_line g = true /\ exists b, s = g +:+ ". []" +:+ b.
Proof.
  revert g. induction s as [|c r IH]; intros g.
  - cbn. discriminate.
  - assert (Hhere : (if strip_prefix ". []" (String c r) is Some _
                     then Some "" else None) = Some g ->
                    single_line g = true
                    /\ exists b, String c r = g +:+ ". []" +:+ b).
    { destruct (strip_prefix ". []" (String c r)) as [b|] eqn:Hs;
        [|discriminate].
      intros [= <-]. split; [reflexivity|].
      exists b. apply strip_prefix_sound in Hs. exact Hs. }
    cbn [match_group].
    destruct (is_line_terminator c) eqn:Hc; [exact Hhere|].
    destruct (match_group r) as [g'|]; [|exact Hhere].
    intros [= <-]. destruct (IH g' eq_refl) as (Hline & b & ->).
    split; [cbn; rewrite Hc; exact Hline|].
    exists b. reflexivity.
Qed.

Lemma match_here_sound (s g : string) :
  match_here s = Some g ->
  single_line g = true
  /\ exists a b, s = a +:+ "Theia app listening on " +:+ g +:+ ". []" +:+ b.
Proof.
  revert g. induction s as [|c r IH]; intros g.
  - cbn. discriminate.
  - assert (Hhere : match strip_prefix "Theia app listening on " (String c r) with
                    | Some r' => match_group r'
                    | None => None
                    end = Some g ->
                    single_line g = true
                    /\ exists a b, String c r
                         = a +:+ "Theia app listening on " +:+ g +:+ ". []" +:+ b).
    { destruct (strip_prefix "Theia app listening on " (String c r))
        as [r'|] eqn:Hs; [|discriminate].
      intros Hg. destruct (match_group_sound r' g Hg) as (Hline & b & ->).
      split; [exact Hline|]. exists "", b.
      apply strip_prefix_sound in Hs. exact Hs. }
    cbn [match_here].
    destruct (is_line_terminator c); [exact Hhere|].
    destruct (match_here r) as [g'|]; [|exact Hhere].
    intros [= <-]. destruct (IH g' eq_refl) as (Hline & a & b & ->).
    split; [exact Hline|]. exists (String c a), b. reflexivity.
Qed.

(** X1: A match of the readiness pattern means what it should: the chunk holds
    the words [Theia app listening on ], then the captured address, which
    stays on one line, then a dot, a space and a pair of brackets. *)
Theorem THEIA_INSTANCE_REGEX_sound (data m1 : string) :
  THEIA_INSTANCE_REGEX_exec data = Some m1 ->
  single_line m1 = true
  /\ exists before after,
       data = before +:+ "Theia app listening on " +:+ m1 +:+ ". []" +:+ after.
Proof.
  induction data as [|c r IH].
  - cbn. discriminate.
  - cbn [THEIA_INSTANCE_REGEX_exec].
    destruct (match_here (String c r)) as [g|] eqn:Hm.
    + intros [= <-]. apply match_here_sound. exact Hm.
    + intros Hr. destruct (IH Hr) as (Hline & a & b & ->).
      split; [exact Hline|]. exists (String c a), b. reflexivity.
Qed.

Lemma match_group_here (s : string) :
  is_Some (strip_prefix ". []" s) -> is_Some (match_group s).
Proof.
  intros [b Hb]. destruct s as [|c r]; cbn [match_group]; rewrite Hb.
  - eauto.
  - destruct (is_line_terminator c); [eauto|].
    destruct (match_group r); eauto.
Qed.

Lemma match_group_complete (g after : string) :
  single_line g = true ->
  is_Some (match_group (g +:+ ". []" +:+ after)).
Proof.
  induction g as [|c g IH]; intros Hline.
  - apply match_group_here.
    change ("" +:+ ". []" +:+ after) with (". []" +:+ after).
    rewrite strip_prefix_complete. eauto.
  - simpl in Hline. apply andb_true_iff in Hline as [Hc Hline].
    apply negb_true_iff in Hc.
    destruct (IH Hline) as [g' Hg'].
    change (String c g +:+ ". []" +:+ after)
      with (String c (g +:+ ". []" +:+ after)).
    cbn [match_group]. rewrite Hc, Hg'. eauto.
Qed.

Lemma match_here_complete (rest : string) :
  is_Some (match_group rest) ->
  is_Some (match_here ("Theia app listening on " +:+ rest)).
Proof.
  intros [g Hg].
  change ("Theia app listening on " +:+ rest)
    with (String "T" ("heia app listening on " +:+ rest)).
  cbn [match_here].
  change (String "T" ("heia app listening on " +:+ rest))
    with ("Theia app listening on " +:+ rest).
  rewrite strip_prefix_complete, Hg.
  destruct (is_line_terminator "T"); [eauto|].
  destruct (match_here ("heia app listening on " +:+ rest)); eauto.
Qed.

Lemma exec_here (s : string) :
  is_Some (match_here s) -> is_Some (THEIA_INSTANCE_REGEX_exec s).
Proof.
  intros [g Hg]. destruct s as [|c r];
    cbn [THEIA_INSTANCE_REGEX_exec]; rewrite Hg; eauto.
Qed.

Lemma exec_later (c : ascii) (s : string) :
  is_Some (THEIA_INSTANCE_REGEX_exec s) ->
  is_Some (THEIA_INSTANCE_REGEX_exec (String c s)).
Proof.
  intros Hs. cbn [THEIA_INSTANCE_REGEX_exec].
  destruct (match_here (String c s)); eauto.
Qed.

(** X2: Conversely, every chunk that holds these words, an address on one line
    and the dot, space and brackets is matched, wherever in the chunk they
    stand. *)
Theorem THEIA_INSTANCE_REGEX_complete (before m after : string) :
  single_line m = true ->
  is_Some (THEIA_INSTANCE_REGEX_exec
             (before +:+ "Theia app listening on " +:+ m +:+ ". []" +:+ after)).
Proof.
  intros Hline.
  induction before as [|c before IH].
  - apply exec_here. apply match_here_complete.
    apply match_group_complete. exact Hline.
  - apply (exec_later c). exact IH.
Qed.

Lemma has_char_app (c : ascii) (a b : string) :
  has_char c (a +:+ b) = (has_char c a || has_char c b)%bool.
Proof.
  induction a as [|x a IH]; [reflexivity|].
  simpl. rewrite IH. apply orb_assoc.
Qed.

Lemma match_group_exact (m after : string) :
  single_line m = true ->
  has_char "]" after = false ->
  match_group (m +:+ ". []" +:+ after) = Some m.
Proof.
  intros Hline Hafter. induction m as [|c m IH].
  - change ("" +:+ ". []" +:+ after) with (String "." (" []" +:+ after)).
    cbn [match_group].
    change (String "." (" []" +:+ after)) with (". []" +:+ after).
    rewrite strip_prefix_complete.
    change (is_line_terminator ".") with false. cbv iota.
    destruct (match_group (" []" +:+ after)) as [g|] eqn:Hg; [|reflexivity].
    exfalso. destruct (match_group_sound _ _ Hg) as (_ & b & Hb).
    destruct g as [|c1 [|c2 [|c3 g]]]; simpl in Hb; try discriminate Hb.
    injection Hb as _ _ _ Hb. change ("" +:+ after) with after in Hb.
    rewrite Hb, has_char_app in Hafter.
    apply orb_false_iff in Hafter as [_ Hafter].
    simpl in Hafter. discriminate Hafter.
  - simpl in Hline. apply andb_true_iff in Hline as [Hc Hline].
    apply negb_true_iff in Hc.
    change (String c m +:+ ". []" +:+ after)
      with (String c (m +:+ ". []" +:+ after)).
    cbn [match_group]. rewrite Hc, (IH Hline). reflexivity.
Qed.

Lemma match_here_exact (rest m : string) :
  match_group rest = Some m ->
  has_char "T" rest = false ->
  match_here ("Theia app listening on " +:+ rest) = Some m.
Proof.
  intros Hg Hrest.
  change ("Theia app listening on " +:+ rest)
    with (String "T" ("heia app listening on " +:+ rest)).
  cbn [match_here].
  change (String "T" ("heia app listening on " +:+ rest))
    with ("Theia app listening on " +:+ rest).
  rewrite strip_prefix_complete, Hg.
  change (is_line_terminator "T") with false. cbv iota.
  destruct (match_here ("heia app listening on " +:+ rest)) as [g|] eqn:Hh;
    [|reflexivity].
  exfalso. destruct (match_here_sound _ _ Hh) as (_ & a & b & Hab).
  assert (Hhas : has_char "T" ("heia app listening on " +:+ rest) = true).
  { rewrite Hab, has_char_app. apply orb_true_iff. right. reflexivity. }
  rewrite has_char_app, Hrest in Hhas. simpl in Hhas. discriminate Hhas.
Qed.

Lemma match_here_before (before s m : string) :
  single_line before = true ->
  match_here s = Some m ->
  match_here (before +:+ s) = Some m.
Proof.
  intros Hline Hs. induction before as [|c before IH]; [exact Hs|].
  simpl in Hline. apply andb_true_iff in Hline as [Hc Hline].
  apply negb_true_iff in Hc.
  change (String c before +:+ s) with (String c (before +:+ s)).
  cbn [match_here]. rewrite Hc, (IH Hline). reflexivity.
Qed.

(** X3: When the words stand on the first line of the chunk, the address is on
    one line, neither it nor what follows holds a capital T, and no closing
    bracket follows the marker, then what is captured is exactly the
    address that was printed. *)
Theorem THEIA_INSTANCE_REGEX_captures_the_address (before m after : string) :
  single_line before = true ->
  single_line m = true ->
  has_char "T" (m +:+ ". []" +:+ after) = false ->
  has_char "]" after = false ->
  THEIA_INSTANCE_REGEX_exec
    (before +:+ "Theia app listening on " +:+ m +:+ ". []" +:+ after)
  = Some m.
Proof.
  intros Hbefore Hline Hcapital Hbracket.
  assert (Hhere : match_here (before +:+ "Theia app listening on " +:+ m
                              +:+ ". []" +:+ after) = Some m).
  { apply match_here_before; [exact Hbefore|].
    apply match_here_exact; [|exact Hcapital].
    apply match_group_exact; assumption. }
  destruct (before +:+ "Theia app listening on " +:+ m +:+ ". []" +:+ after);
    cbn [THEIA_INSTANCE_REGEX_exec]; rewrite Hhere; reflexivity.
Qed.

(* ===================================================================== *)
(** ** Further properties: the manager *)
(* ===================================================================== *)

Section FurtherProperties.
Context {P : Platform}.

(** *** Refused launches *)

Lemma run_refused_running (v : Variant) (os : Os) (pluginUri : URI)
    (requested : option Z) (w : World) :
  isRunning w = true ->
  run v os pluginUri requested w = (Rejected AlreadyRunningError, w).
Proof. unfold isRunning, run. intros ->. reflexivity. Qed.

Lemma run_refused_scheme (v : Variant) (os : Os) (pluginUri : URI)
    (requested : option Z) (w : World) :
  isRunning w = false ->
  uri_scheme pluginUri <> "file" ->
  run v os pluginUri requested w
  = (Rejected (UnsupportedLocationError (uri_toString pluginUri)), w).
Proof.
  unfold run, isRunning. intros -> Hscheme.
  destruct (String.eqb_spec (uri_scheme pluginUri) "file");
    [contradiction | reflexivity].
Qed.

(** X4: A location whose scheme is not [file] is refused, on an idle manager,
    with the unsupported-location error, before anything is written to the
    environment or asked of the system; on a running manager the
    already-running error comes first. *)
Theorem run_unsupported_location (v : Variant) (os : Os) (pluginUri : URI)
    (port : option Z) (w : World) :
  uri_scheme pluginUri <> "file" ->
  run v os pluginUri port w
  = (Rejected (if isRunning w then AlreadyRunningError
               else UnsupportedLocationError (uri_toString pluginUri)), w).
Proof.
  intros Hscheme. destruct (isRunning w) eqn:Hidle.
  - apply run_refused_running. exact Hidle.
  - apply run_refused_scheme; assumption.
Qed.

(** *** Port validation, the accepting side *)

Lemma validatePort_verdicts (os : Os) (port : Z) (w : World) :
  let first := port_free os (probes w) port in
  let second := port_free os (S (probes w)) port in
  (fst (validatePort os port w) = Fulfilled tt
   <-> 1 <= port <= 65535 /\ (first = true \/ second = true))
  /\ (1 <= port <= 65535 -> first = true ->
      effects (snd (validatePort os port w))
      = (effects w ++ [ServerListen port "0.0.0.0"; ServerClose])%list)
  /\ (1 <= port <= 65535 -> first = false -> second = true ->
      effects (snd (validatePort os port w))
      = (effects w ++ [ServerListen port "0.0.0.0"; SetTimeout 1000;
                       ServerListen port "0.0.0.0"; ServerClose])%list)
  /\ this (snd (validatePort os port w)) = this w.
Proof.
  intros first second.
  split; [|split; [|split]].
  - destruct (Z_lt_le_dec port 1) as [Hlo|Hlo];
      [|destruct (Z_lt_le_dec 65535 port) as [Hhi|Hhi]].
    + rewrite validatePort_out_of_range by (left; exact Hlo).
      split; [discriminate | lia].
    + rewrite validatePort_out_of_range by (right; exact Hhi).
      split; [discriminate | lia].
    + destruct (validatePort_in_range os port w (conj Hlo Hhi)) as (Hres & _).
      fold first second in Hres. rewrite Hres. unfold probe_verdict.
      clearbody first second.
      destruct first, second; split; intros Hx;
        try discriminate Hx; try reflexivity; try (split; [lia|auto]).
      destruct Hx as (_ & [Hx | Hx]); discriminate Hx.
  - intros Hin Hfirst.
    destruct (validatePort_in_range os port w Hin) as (_ & Heff & _).
    fold first second in Heff. rewrite Heff. unfold probe_trace.
    rewrite Hfirst. reflexivity.
  - intros Hin Hfirst Hsecond.
    destruct (validatePort_in_range os port w Hin) as (_ & Heff & _).
    fold first second in Heff. rewrite Heff. unfold probe_trace.
    rewrite Hfirst, Hsecond. reflexivity.
  - apply validatePort_frame.
Qed.

(** X5: [validatePort] is fulfilled exactly for a port in 1..65535 that the
    first probe or the retry finds free. When the first probe finds it
    free there is no timer and no second probe, and every throwaway server
    that got to listen is closed again. The manager's fields are never
    touched. *)
Theorem validatePort_accepts (os : Os) (port : Z) (w : World) :
  let first := port_free os (probes w) port in
  let second := port_free os (S (probes w)) port in
  (fst (validatePort os port w) = Fulfilled tt
   <-> 1 <= port <= 65535 /\ (first = true \/ second = true))
  /\ (1 <= port <= 65535 -> first = true ->
      effects (snd (validatePort os port w))
      = (effects w ++ [ServerListen port "0.0.0.0"; ServerClose])%list)
  /\ (1 <= port <= 65535 -> first = false -> second = true ->
      effects (snd (validatePort os port w))
      = (effects w ++ [ServerListen port "0.0.0.0"; SetTimeout 1000;
                       ServerListen port "0.0.0.0"; ServerClose])%list)
  /\ this (snd (validatePort os port w)) = this w.
Proof. exact (validatePort_verdicts os port w). Qed.

(** *** The start command *)

Lemma base_getStartCommand_unfold (os : Os) (port : option Z) (w : World) :
  AbstractHostedPluginManager_getStartCommand os port w
  = match truthy_port port with
    | Some p =>
        match validatePort os p w with
        | (Fulfilled _, w1) =>
            (Fulfilled (["yarn"; "theia"; "start"] ++ hostname_flag w
                        ++ port_flag port)%list,
             set_port p w1)
        | (Rejected r, w1) => (Rejected r, w1)
        | (Pending, w1) => (Pending, w1)
        end
    | None =>
        (Fulfilled (["yarn"; "theia"; "start"] ++ hostname_flag w)%list, w)
    end.
Proof.
  unfold AbstractHostedPluginManager_getStartCommand, hostname_flag, port_flag.
  destruct (truthy_port port) as [p|].
  - unfold await, perform, resolve.
    destruct (validatePort os p w) as [[[] | r |] w1]; try reflexivity.
    destruct (truthy_var (process_env w !! "HOSTED_PLUGIN_HOSTNAME"));
      reflexivity.
  - unfold resolve.
    destruct (truthy_var (process_env w !! "HOSTED_PLUGIN_HOSTNAME"));
      reflexivity.
Qed.

Lemma base_start_command (os : Os) (requested : option Z) (w : World)
    (command : list string) :
  fst (AbstractHostedPluginManager_getStartCommand os requested w)
  = Fulfilled command ->
  command = (["yarn"; "theia"; "start"] ++ hostname_flag w
             ++ port_flag requested)%list
  /\ (forall p, truthy_port requested = Some p ->
        1 <= p <= 65535
        /\ (port_free os (probes w) p = true
            \/ port_free os (S (probes w)) p = true)
        /\ port
             (this (snd (AbstractHostedPluginManager_getStartCommand os requested w)))
           = Some p)
  /\ (truthy_port requested = None ->
      snd (AbstractHostedPluginManager_getStartCommand os requested w) = w).
Proof.
  rewrite base_getStartCommand_unfold.
  destruct (truthy_port requested) as [p|] eqn:Hport.
  - pose proof (validatePort_verdicts os p w) as (Hacc & _).
    destruct (validatePort os p w) as [[[] | r |] w1]; cbn [fst snd] in *;
      try discriminate.
    intros [= <-]. split; [|split].
    + unfold port_flag. rewrite Hport. reflexivity.
    + intros p' [= <-]. destruct (proj1 Hacc eq_refl) as (Hin & Hfree).
      repeat split; try lia; auto.
    + discriminate.
  - cbn [fst snd]. intros [= <-]. split; [|split].
    + unfold port_flag. rewrite Hport. rewrite app_nil_r. reflexivity.
    + discriminate.
    + reflexivity.
Qed.

(** X6: The command of the base class is [yarn theia start], then the hostname
    flag if [HOSTED_PLUGIN_HOSTNAME] is set and not empty, then the port
    flag if a port was asked for. A port flag is only ever produced for a
    port in 1..65535 that a probe found free, and the manager then
    remembers that port. Without a port nothing at all is done. *)
Theorem start_command_of_base_class (os : Os) (requested : option Z) (w : World)
    (command : list string) :
  fst (AbstractHostedPluginManager_getStartCommand os requested w)
  = Fulfilled command ->
  command = (["yarn"; "theia"; "start"] ++ hostname_flag w
             ++ port_flag requested)%list
  /\ (forall p, truthy_port requested = Some p ->
        1 <= p <= 65535
        /\ (port_free os (probes w) p = true
            \/ port_free os (S (probes w)) p = true)
        /\ port
             (this (snd (AbstractHostedPluginManager_getStartCommand os requested w)))
           = Some p)
  /\ (truthy_port requested = None ->
      snd (AbstractHostedPluginManager_getStartCommand os requested w) = w).
Proof. exact (base_start_command os requested w command). Qed.

(** X7: [NodeHostedPluginRunner] always asks for a port: the one requested if
    there is one, else the number in [HOSTED_PLUGIN_PORT] if that variable
    is set and not empty, else 3030. Unless the variable decides, a start
    command that is built ends with the flag for that port, which is in
    1..65535. *)
Theorem start_command_of_node_runner (ps : list (URI -> Settle URI))
    (os : Os) (requested : option Z) (w : World) :
  (forall s,
     truthy_port requested = None ->
     truthy_var (process_env w !! "HOSTED_PLUGIN_PORT") = Some s ->
     getStartCommand (NodeHostedPluginRunner ps) os requested w
     = AbstractHostedPluginManager_getStartCommand os (Number s) w)
  /\ (forall command,
        truthy_port requested <> None
        \/ truthy_var (process_env w !! "HOSTED_PLUGIN_PORT") = None ->
        fst (getStartCommand (NodeHostedPluginRunner ps) os requested w)
        = Fulfilled command ->
        let p := default 3030 (truthy_port requested) in
        1 <= p <= 65535
        /\ command = (["yarn"; "theia"; "start"] ++ hostname_flag w
                      ++ ["--port=" +:+ pretty p])%list
        /\ port (this (snd (getStartCommand (NodeHostedPluginRunner ps)
                              os requested w)))
           = Some p).
Proof.
  split.
  - intros s Hreq Hvar. unfold getStartCommand. rewrite Hreq, Hvar.
    reflexivity.
  - intros command Hcase Hcmd p.
    assert (Heq : getStartCommand (NodeHostedPluginRunner ps) os requested w
                  = AbstractHostedPluginManager_getStartCommand os (Some p) w
                  /\ truthy_port (Some p) = Some p).
    { subst p. unfold getStartCommand.
      destruct (truthy_port requested) as [q|] eqn:Hreq.
      - change (default 3030 (Some q)) with q.
        split; [reflexivity|].
        unfold truthy_port in Hreq |- *.
        destruct requested as [q'|]; [|discriminate Hreq].
        destruct (Z.eqb_spec q' 0) as [|Hne]; [discriminate Hreq|].
        injection Hreq as <-.
        destruct (Z.eqb_spec q' 0); [contradiction | reflexivity].
      - destruct Hcase as [Hcase | Hvar]; [contradiction|].
        rewrite Hvar. split; reflexivity. }
    destruct Heq as (Heq & Htruthy). rewrite Heq in Hcmd |- *.
    destruct (base_start_command os (Some p) w command Hcmd)
      as (Hshape & Hport & _).
    destruct (Hport p Htruthy) as (Hin & _ & Hrec).
    split; [exact Hin|]. split; [|exact Hrec].
    rewrite Hshape. unfold port_flag. rewrite Htruthy. reflexivity.
Qed.

(** *** Spawning *)

Lemma spawns_emit (e : Effect) (w : World) :
  spawns (effects (emit e w))
  = (spawns (effects w) ++ (if is_spawn e then [e] else []))%list.
Proof.
  unfold spawns. cbn. rewrite List.filter_app. cbn.
  destruct (is_spawn e); reflexivity.
Qed.

Lemma spawns_app (a b : list Effect) :
  spawns (a ++ b) = (spawns a ++ spawns b)%list.
Proof. unfold spawns. apply List.filter_app. Qed.

Lemma validatePort_spawns (os : Os) (port0 : Z) (w : World) :
  spawns (effects (snd (validatePort os port0 w))) = spawns (effects w).
Proof.
  destruct (Z_lt_le_dec port0 1) as [Hlo|Hlo];
    [|destruct (Z_lt_le_dec 65535 port0) as [Hhi|Hhi]].
  - rewrite validatePort_out_of_range by (left; exact Hlo). reflexivity.
  - rewrite validatePort_out_of_range by (right; exact Hhi). reflexivity.
  - destruct (validatePort_in_range os port0 w (conj Hlo Hhi)) as (_ & Heff & _).
    rewrite Heff, spawns_app. unfold probe_trace.
    destruct (port_free os (probes w) port0);
      [|destruct (port_free os (S (probes w)) port0)];
      cbn; apply app_nil_r.
Qed.

Lemma getStartCommand_spawns (v : Variant) (os : Os) (requested : option Z)
    (w : World) :
  spawns (effects (snd (getStartCommand v os requested w)))
  = spawns (effects w).
Proof.
  assert (Hbase : forall q,
    spawns (effects (snd (AbstractHostedPluginManager_getStartCommand os q w)))
    = spawns (effects w)).
  { intros q. rewrite base_getStartCommand_unfold.
    destruct (truthy_port q) as [p|]; [|reflexivity].
    pose proof (validatePort_spawns os p w) as Hs.
    destruct (validatePort os p w) as [[[] | r |] w1]; exact Hs. }
  destruct v; unfold getStartCommand; apply Hbase.
Qed.

Lemma await_started_spawns (events : list LoopEvent) (w : World) :
  spawns (effects (snd (await_started events w))) = spawns (effects w).
Proof.
  revert w. induction events as [|e rest IH]; intros w; [reflexivity|].
  destruct e; cbn [await_started]; try apply IH.
  - destruct (THEIA_INSTANCE_REGEX_exec data); [reflexivity | apply IH].
  - apply (IH (set_isInstanceRunnig false w)).
  - apply (IH (set_isInstanceRunnig false w)).
  - destruct (hostedInstanceProcess (this w)); [|apply IH].
    cbn [snd]. change (effects (with_inbox rest
                         (set_isInstanceRunnig false (emit (Kill z) w))))
      with (effects (emit (Kill z) w)).
    rewrite spawns_emit. cbn. apply app_nil_r.
Qed.

Lemma poll_spawns (uri : URI) (events : list LoopEvent) (loop : option nat)
    (w : World) :
  spawns (effects (snd (poll uri loop events w))) = spawns (effects w).
Proof.
  revert loop w. induction events as [|e rest IH]; intros loop w;
    [reflexivity|].
  destruct e; cbn [poll]; try apply IH; try reflexivity.
  - apply (IH loop (set_isInstanceRunnig false w)).
  - apply (IH loop (set_isInstanceRunnig false w)).
  - destruct loop as [i|]; [destruct (S i <? 10)%nat|]; rewrite IH.
    + rewrite !spawns_emit. cbn. rewrite !app_nil_r. reflexivity.
    + rewrite spawns_emit. cbn. apply app_nil_r.
    + reflexivity.
Qed.

Lemma spawns_spawned (os : Os) (file : string) (args : list string)
    (options : SpawnOptions) (w : World) :
  spawns (effects (spawned os file args options w))
  = (spawns (effects w)
     ++ [Spawn file args (cwd options) (env_of options w) (child_pid os)])%list.
Proof.
  change (effects (spawned os file args options w))
    with ((effects w
           ++ [Spawn file args (cwd options) (env_of options w) (child_pid os)])
          ++ [SetTimeout HOSTED_INSTANCE_START_TIMEOUT_MS])%list.
  rewrite !spawns_app. cbn. apply app_nil_r.
Qed.

(** What follows the spawn spawns nothing more. *)
Lemma after_spawn_spawns (v : Variant) (options : SpawnOptions) (w1 : World) :
  spawns (effects (snd
    ((let/a started := (fun w => await_started (inbox w) w) in
      let/a uri := postProcessInstanceUri v started in
      perform (set_instanceUri uri) ;;;
      ensureUriAvailable uri ;;;
      fun w => (Fulfilled (instanceUri (this w)), w)) w1)))
  = spawns (effects w1).
Proof.
  unfold await.
  pose proof (await_started_spawns (inbox w1) w1) as Hs.
  destruct (await_started (inbox w1) w1) as [[started | r |] w2];
    cbn [fst snd] in *; try exact Hs.
  assert (Hpost : snd (postProcessInstanceUri v started w2) = w2)
    by (destruct v; reflexivity).
  destruct (postProcessInstanceUri v started w2) as [[uri | r |] w2'];
    cbn [fst snd] in *; subst w2'; try exact Hs.
  unfold perform, ensureUriAvailable.
  pose proof (poll_spawns uri
                (inbox (emit (SetTimeout 1000)
                   (emit (HttpGet (uri_toString uri)) (set_instanceUri uri w2))))
                (Some 0%nat)
                (emit (SetTimeout 1000)
                   (emit (HttpGet (uri_toString uri)) (set_instanceUri uri w2))))
    as Hp.
  destruct (poll uri (Some 0%nat)
              (inbox (emit (SetTimeout 1000)
                 (emit (HttpGet (uri_toString uri)) (set_instanceUri uri w2))))
              (emit (SetTimeout 1000)
                 (emit (HttpGet (uri_toString uri)) (set_instanceUri uri w2))))
    as [[[] | r |] w4]; cbn [fst snd] in *;
    rewrite Hp, !spawns_emit; cbn; rewrite !app_nil_r; exact Hs.
Qed.

Lemma run_spawns (v : Variant) (os : Os) (pluginUri : URI)
    (requested : option Z) (w : World) :
  (isRunning w = true \/ uri_scheme pluginUri <> "file"
   \/ (exists r, fst (getStartCommand v os requested w) = Rejected r) ->
   spawns (effects (snd (run v os pluginUri requested w)))
   = spawns (effects w))
  /\ (forall command,
        isRunning w = false -> uri_scheme pluginUri = "file" ->
        fst (getStartCommand v os requested w) = Fulfilled command ->
        spawns (effects (snd (run v os pluginUri requested w)))
        = (spawns (effects w)
           ++ [Spawn (hd "" command) (tl command) (cwd (PROCESS_OPTIONS w))
                 (env_of (PROCESS_OPTIONS w) (prepared pluginUri w))
                 (child_pid os)])%list).
Proof.
  split.
  - intros Hcase.
    destruct (isRunning w) eqn:Hidle;
      [rewrite run_refused_running by exact Hidle; reflexivity|].
    destruct (String.eqb_spec (uri_scheme pluginUri) "file") as [Hfile|Hfile].
    + destruct Hcase as [Hc | [Hc | [r Hr]]];
        [discriminate Hc | contradiction |].
      rewrite (run_unfold v os pluginUri requested w Hidle Hfile).
      rewrite prepared_with_heap. unfold await.
      rewrite getStartCommand_heap, Hr. cbn [snd effects with_heap].
      apply getStartCommand_spawns.
    + rewrite run_refused_scheme by assumption. reflexivity.
  - intros command Hidle Hfile Hcmd.
    rewrite (run_unfold v os pluginUri requested w Hidle Hfile).
    rewrite prepared_with_heap. unfold await at 1.
    rewrite getStartCommand_heap, Hcmd.
    pose proof (getStartCommand_frame v os requested w)
      as (_ & _ & _ & _ & _ & _ & Hyarn).
    destruct (Hyarn command Hcmd) as [args ->].
    set (w1 := with_heap (heap (prepared pluginUri w))
                 (snd (getStartCommand v os requested w))).
    change (spawns (effects (snd
      ((let/a started := (fun w0 => await_started (inbox w0) w0) in
        let/a uri := postProcessInstanceUri v started in
        perform (set_instanceUri uri) ;;;
        ensureUriAvailable uri ;;;
        fun w0 => (Fulfilled (instanceUri (this w0)), w0))
         (spawned os "yarn" args (shallow_copy (PROCESS_OPTIONS w)) w1))))
      = (spawns (effects w)
         ++ [Spawn "yarn" args (cwd (PROCESS_OPTIONS w))
               (env_of (PROCESS_OPTIONS w) (prepared pluginUri w))
               (child_pid os)])%list).
    rewrite (after_spawn_spawns v (shallow_copy (PROCESS_OPTIONS w))).
    rewrite spawns_spawned.
    change (effects w1) with (effects (snd (getStartCommand v os requested w))).
    rewrite getStartCommand_spawns. reflexivity.
Qed.

(** X8: One call of [run] spawns at most one child. It spawns none when it is
    refused by the guard, by the scheme or by the port validation; when the
    start command is built it spawns exactly one, whatever happens later:
    the head of the command, with the rest as arguments, in the module's
    working directory, with the shared environment as it is after the two
    writes. *)
Theorem run_spawns_once (v : Variant) (os : Os) (pluginUri : URI)
    (requested : option Z) (w : World) :
  (isRunning w = true \/ uri_scheme pluginUri <> "file"
   \/ (exists r, fst (getStartCommand v os requested w) = Rejected r) ->
   spawns (effects (snd (run v os pluginUri requested w)))
   = spawns (effects w))
  /\ (forall command,
        isRunning w = false -> uri_scheme pluginUri = "file" ->
        fst (getStartCommand v os requested w) = Fulfilled command ->
        spawns (effects (snd (run v os pluginUri requested w)))
        = (spawns (effects w)
           ++ [Spawn (hd "" command) (tl command) (cwd (PROCESS_OPTIONS w))
                 (env_of (PROCESS_OPTIONS w) (prepared pluginUri w))
                 (child_pid os)])%list).
Proof. exact (run_spawns v os pluginUri requested w). Qed.

Lemma getStartCommand_prefix (v : Variant) (os : Os) (requested : option Z)
    (w : World) (command : list string) :
  fst (getStartCommand v os requested w) = Fulfilled command ->
  exists flags, command = "yarn" :: "theia" :: "start" :: flags.
Proof.
  assert (Hbase : forall q,
    fst (AbstractHostedPluginManager_getStartCommand os q w) = Fulfilled command ->
    exists flags, command = "yarn" :: "theia" :: "start" :: flags).
  { intros q Hq.
    destruct (base_start_command os q w command Hq) as (-> & _).
    eexists. reflexivity. }
  destruct v; unfold getStartCommand; apply Hbase.
Qed.

Lemma call_spawns (c : Call) (w : World) :
  spawns (effects (call c w)) = spawns (effects w).
Proof.
  destruct c as [os | | os uri | e]; cbn [call].
  - unfold terminate. destruct (isInstanceRunnig (this w)); [|reflexivity].
    destruct (hostedInstanceProcess (this w)); [|reflexivity].
    cbn [snd]. rewrite !spawns_emit. cbn. rewrite !app_nil_r. reflexivity.
  - reflexivity.
  - destruct (isPluginValid_frame os uri w) as (_ & _ & _ & -> & _).
    reflexivity.
  - unfold dispatch. destruct e, (hostedInstanceProcess (this w)); reflexivity.
Qed.

Lemma well_kept_load (dir : string) (penv : gmap string string)
    (events : list LoopEvent) :
  well_kept penv (module_load dir penv events).
Proof.
  unfold well_kept, env_of, module_load.
  cbn [heap PROCESS_OPTIONS env effects].
  rewrite lookup_singleton_eq. cbn [default].
  split; [apply lookup_delete_eq|]. split; [|constructor].
  intros k Hk _ _. apply lookup_delete_ne. congruence.
Qed.

Lemma well_kept_call (penv : gmap string string) (c : Call) (w : World) :
  well_kept penv w -> well_kept penv (call c w).
Proof.
  unfold well_kept, env_of.
  destruct (call_frame c w) as (-> & -> & _). rewrite call_spawns. auto.
Qed.

Lemma well_kept_run (penv : gmap string string) (v : Variant) (os : Os)
    (pluginUri : URI) (requested : option Z) (w : World) :
  well_kept penv w -> well_kept penv (snd (run v os pluginUri requested w)).
Proof.
  intros (Hclean & Hrest & Hspawns).
  destruct (isRunning w) eqn:Hidle.
  { rewrite run_refused_running by exact Hidle.
    split; [|split]; assumption. }
  destruct (String.eqb_spec (uri_scheme pluginUri) "file") as [Hfile|Hfile].
  2:{ rewrite run_refused_scheme by assumption.
      split; [|split]; assumption. }
  pose proof (run_module_state v os pluginUri requested w Hidle Hfile) as Hmod.
  unfold module_state in Hmod. injection Hmod as _ Hopt Hheap _.
  cbn [PROCESS_OPTIONS prepared env_write with_heap] in Hopt.
  assert (Henv : env_of (PROCESS_OPTIONS (snd (run v os pluginUri requested w)))
                   (snd (run v os pluginUri requested w))
                 = <["THEIA_PLUGINS" := ""]>
                     (<["HOSTED_PLUGIN" := uri_path pluginUri]>
                        (env_of (PROCESS_OPTIONS w) w))).
  { rewrite <- env_of_prepared. unfold env_of. rewrite Hopt, Hheap.
    reflexivity. }
  assert (Hnew : standalone_env
                   (env_of (PROCESS_OPTIONS w) (prepared pluginUri w))
                 /\ forall k, k <> "ELECTRON_RUN_AS_NODE" ->
                      k <> "HOSTED_PLUGIN" -> k <> "THEIA_PLUGINS" ->
                      env_of (PROCESS_OPTIONS w) (prepared pluginUri w) !! k
                      = penv !! k).
  { rewrite env_of_prepared. split; [split; [|split]|].
    - rewrite !lookup_insert_ne by discriminate. exact Hclean.
    - apply lookup_insert_eq.
    - rewrite lookup_insert_ne by discriminate.
      rewrite lookup_insert_eq. eauto.
    - intros k H1 H2 H3. rewrite !lookup_insert_ne by congruence.
      apply Hrest; assumption. }
  unfold well_kept. rewrite Henv. split; [|split].
  - rewrite !lookup_insert_ne by discriminate. exact Hclean.
  - intros k H1 H2 H3. rewrite !lookup_insert_ne by congruence.
    apply Hrest; assumption.
  - pose proof (getStartCommand_frame v os requested w)
      as (_ & _ & _ & _ & _ & Hsettled & _).
    destruct (fst (getStartCommand v os requested w))
      as [command | r |] eqn:Hcmd; [| |contradiction].
    + rewrite (proj2 (run_spawns v os pluginUri requested w)
                 command Hidle Hfile Hcmd).
      apply Forall_app. split; [exact Hspawns|].
      constructor; [|constructor].
      destruct (getStartCommand_prefix v os requested w command Hcmd)
        as [flags ->].
      destruct Hnew as (Hstand & Hinh).
      split; [|exact Hinh]. cbn. auto.
    + rewrite (proj1 (run_spawns v os pluginUri requested w))
        by (right; right; eauto).
      exact Hspawns.
Qed.

Lemma Forall_spawns (Q : Effect -> Prop) (l : list Effect) :
  (forall e, is_spawn e = false -> Q e) ->
  Forall Q (spawns l) -> Forall Q l.
Proof.
  intros Hother. unfold spawns.
  induction l as [|e l IH]; cbn; [constructor|].
  destruct (is_spawn e) eqn:He; intros Hall.
  - inversion Hall; subst. constructor; auto.
  - constructor; auto.
Qed.

(** X9: Whatever has been done with a manager since the module was loaded,
    every child it has spawned was started as [yarn theia start ...] with
    an environment that names the plugin under development in
    [HOSTED_PLUGIN], sets [THEIA_PLUGINS] to the empty string, has no
    [ELECTRON_RUN_AS_NODE], and has every other variable as [process.env]
    had it when the module was loaded. *)
Theorem hosted_instances_start_standalone (dir : string)
    (penv : gmap string string) (events : list LoopEvent)
    (steps : list Step) :
  Forall (fun e => standalone_spawn e /\ inherits penv e)
    (effects (history steps (module_load dir penv events))).
Proof.
  assert (Hkept : well_kept penv (history steps (module_load dir penv events))).
  { unfold history.
    generalize (well_kept_load dir penv events).
    generalize (module_load dir penv events).
    induction steps as [|st steps IH]; intros w Hw; [exact Hw|].
    cbn [fold_left]. apply IH.
    destruct st as [v os pluginUri requested evs | c]; cbn [step].
    - apply well_kept_run. exact Hw.
    - apply well_kept_call. exact Hw. }
  destruct Hkept as (_ & _ & Hall).
  apply Forall_spawns; [|exact Hall].
  intros e He. destruct e; try discriminate He; cbn; auto.
Qed.

(** *** Waiting for the readiness line *)

Lemma classic_alive (events : list LoopEvent) :
  child_alive events \/ (In ChildExit events \/ In ChildError events).
Proof.
  unfold child_alive. induction events as [|e rest IH]; [left; cbn; tauto|].
  destruct IH as [[Hx He] | Hdead]; [|right; cbn; tauto].
  destruct e;
    try (left; split;
         (cbn; intros [Hd | Hin]; [discriminate Hd | contradiction])).
  - right. left. left. reflexivity.
  - right. right. left. reflexivity.
Qed.

Lemma await_started_waiting (events : list LoopEvent) (w : World) :
  no_ready_line events ->
  ~ In StartupTimeout events ->
  let r := await_started events w in
  fst r = Pending
  /\ effects (snd r) = effects w
  /\ inbox (snd r) = []
  /\ (child_alive events ->
      isInstanceRunnig (this (snd r)) = isInstanceRunnig (this w))
  /\ (In ChildExit events \/ In ChildError events ->
      isInstanceRunnig (this (snd r)) = false).
Proof.
  revert w. induction events as [|e rest IH]; intros w Hno Htimer.
  - cbn. repeat split; auto. intros [[] | []].
  - pose proof (no_ready_line_cons_inv _ _ Hno) as Hno'.
    assert (Htimer' : ~ In StartupTimeout rest) by (cbn in Htimer; tauto).
    assert (Hkeep : forall w1,
      effects w1 = effects w ->
      (e <> ChildExit -> e <> ChildError ->
         isInstanceRunnig (this w1) = isInstanceRunnig (this w)) ->
      (e = ChildExit \/ e = ChildError -> isInstanceRunnig (this w1) = false) ->
      let r := await_started rest w1 in
      fst r = Pending
      /\ effects (snd r) = effects w
      /\ inbox (snd r) = []
      /\ (child_alive (e :: rest) ->
          isInstanceRunnig (this (snd r)) = isInstanceRunnig (this w))
      /\ (In ChildExit (e :: rest) \/ In ChildError (e :: rest) ->
          isInstanceRunnig (this (snd r)) = false)).
    { intros w1 Heff Hsame Hdead.
      destruct (IH w1 Hno' Htimer') as (Hp & He & Hi & Ha & Hd).
      repeat split; auto; try congruence.
      - intros Halive.
        destruct (child_alive_cons_inv _ _ Halive) as (Hx & Hy & Halive').
        rewrite (Ha Halive'). apply Hsame; assumption.
      - intros Hin.
        assert (Hcases : (e = ChildExit \/ e = ChildError)
                         \/ (In ChildExit rest \/ In ChildError rest))
          by (cbn in Hin; tauto).
        destruct Hcases as [He0 | Hrest]; [|apply Hd; exact Hrest].
        destruct (classic_alive rest) as [Halive | Hdead'].
        + rewrite (Ha Halive). apply Hdead. exact He0.
        + apply Hd. exact Hdead'. }
    destruct e; cbn [await_started].
    + rewrite (Hno data) by (left; reflexivity).
      apply Hkeep; auto. intros [Hx | Hx]; discriminate Hx.
    + apply Hkeep; [reflexivity | congruence | reflexivity].
    + apply Hkeep; [reflexivity | congruence | reflexivity].
    + exfalso. apply Htimer. left. reflexivity.
    + apply Hkeep; auto. intros [Hx | Hx]; discriminate Hx.
    + apply Hkeep; auto. intros [Hx | Hx]; discriminate Hx.
Qed.

(** X10: The child's exit and error events never settle the promise of [run]:
    as long as no chunk matches and the start timer has not fired, [run]
    is pending, and no signal is sent. [isRunning()] is true all the while
    if the child is alive, and false as soon as it has exited or failed,
    although [run] is still in flight. *)
Theorem run_waits_for_the_start_timer (v : Variant) (os : Os)
    (pluginUri : URI) (requested : option Z) (w : World)
    (command : list string) :
  isRunning w = false ->
  uri_scheme pluginUri = "file" ->
  fst (getStartCommand v os requested w) = Fulfilled command ->
  no_ready_line (inbox w) ->
  ~ In StartupTimeout (inbox w) ->
  let r := run v os pluginUri requested w in
  fst r = Pending
  /\ (child_alive (inbox w) -> isRunning (snd r) = true)
  /\ (In ChildExit (inbox w) \/ In ChildError (inbox w) ->
      isRunning (snd r) = false)
  /\ effects (snd r)
     = (effects (snd (getStartCommand v os requested w))
        ++ [Spawn (hd "" command) (tl command) (cwd (PROCESS_OPTIONS w))
              (env_of (PROCESS_OPTIONS w) (prepared pluginUri w))
              (child_pid os);
            SetTimeout HOSTED_INSTANCE_START_TIMEOUT_MS])%list.
Proof.
  intros Hidle Hfile Hcmd Hno Htimer r. subst r.
  rewrite (run_unfold v os pluginUri requested w Hidle Hfile).
  rewrite prepared_with_heap. unfold await.
  rewrite getStartCommand_heap, Hcmd.
  pose proof (getStartCommand_frame v os requested w)
    as (_ & Hin & _ & _ & _ & _ & Hyarn).
  destruct (Hyarn command Hcmd) as [args ->].
  rewrite runHostedPluginTheiaInstance_unfold.
  cbn [inbox with_heap]. rewrite Hin.
  set (w1 := spawned os "yarn" args (shallow_copy (PROCESS_OPTIONS w))
               (with_heap (heap (prepared pluginUri w))
                  (snd (getStartCommand v os requested w)))).
  destruct (await_started_waiting (inbox w) w1 Hno Htimer)
    as (Hres & Heff & _ & Halive & Hdead).
  destruct (await_started (inbox w) w1) as [[u | r |] w2];
    cbn [fst snd] in *; try discriminate Hres.
  split; [reflexivity|]. split; [|split].
  - intros Ha. unfold isRunning. rewrite (Halive Ha). reflexivity.
  - intros Hd. unfold isRunning. apply Hdead. exact Hd.
  - rewrite Heff. subst w1.
    cbn [effects spawned emit set_isInstanceRunnig set_hostedInstanceProcess
           with_this with_heap].
    rewrite <- !app_assoc. reflexivity.
Qed.

(** *** A post-processor that fails *)

(** X11: When the child is ready and a post-processor rejects, [run] rejects
    with that reason, before the endpoint is cached and before any request
    is sent. Nothing stops the child: no signal is sent and, if it has not
    exited, [isRunning()] stays true. *)
Theorem run_rejects_with_the_post_processor (ps : list (URI -> Settle URI))
    (os : Os) (pluginUri : URI) (requested : option Z) (w : World)
    (command : list string) (pre post : list LoopEvent) (data m1 : string)
    (reason : Reason) :
  let v := NodeHostedPluginRunner ps in
  isRunning w = false ->
  uri_scheme pluginUri = "file" ->
  fst (getStartCommand v os requested w) = Fulfilled command ->
  inbox w = (pre ++ ChildStdout data :: post)%list ->
  no_ready_line pre ->
  ~ In StartupTimeout pre ->
  THEIA_INSTANCE_REGEX_exec data = Some m1 ->
  processUris ps (new_URI m1) = Rejected reason ->
  let r := run v os pluginUri requested w in
  fst r = Rejected reason
  /\ (child_alive pre -> isRunning (snd r) = true)
  /\ instanceUri (this (snd r)) = instanceUri (this w)
  /\ inbox (snd r) = post
  /\ effects (snd r)
     = (effects (snd (getStartCommand v os requested w))
        ++ [Spawn (hd "" command) (tl command) (cwd (PROCESS_OPTIONS w))
              (env_of (PROCESS_OPTIONS w) (prepared pluginUri w))
              (child_pid os);
            SetTimeout HOSTED_INSTANCE_START_TIMEOUT_MS])%list.
Proof.
  intros v Hidle Hfile Hcmd Hinbox Hno Htimer Hm Hps r. subst r.
  rewrite (run_unfold v os pluginUri requested w Hidle Hfile).
  rewrite prepared_with_heap. unfold await.
  rewrite getStartCommand_heap, Hcmd.
  pose proof (getStartCommand_frame v os requested w)
    as (_ & Hin & _ & _ & Huri0 & _ & Hyarn).
  destruct (Hyarn command Hcmd) as [args ->].
  rewrite runHostedPluginTheiaInstance_unfold.
  cbn [inbox with_heap]. rewrite Hin, Hinbox.
  set (w1 := spawned os "yarn" args (shallow_copy (PROCESS_OPTIONS w))
               (with_heap (heap (prepared pluginUri w))
                  (snd (getStartCommand v os requested w)))).
  destruct (await_started_ready pre post data m1 w1 Hno Htimer Hm)
    as (Hres & Hrest).
  pose proof (await_started_frame (pre ++ ChildStdout data :: post) w1)
    as (_ & _ & Huri).
  assert (Hful : fst (await_started (pre ++ ChildStdout data :: post) w1)
                 = Fulfilled (new_URI m1)) by exact Hres.
  destruct (await_started_fulfilled _ _ _ Hful)
    as (pre' & data' & post' & m1' & Hsplit & Hno' & Hm' & _ & _ & Heff & Hflag).
  assert (Hpre : pre' = pre).
  { clear - Hsplit Hno Hno' Hm Hm'.
    revert pre' Hsplit Hno'.
    induction pre as [|e pre IH]; intros pre' Hsplit Hno'.
    - destruct pre' as [|e' pre']; [reflexivity|].
      cbn in Hsplit. injection Hsplit as <- _.
      rewrite (Hno' data) in Hm by (left; reflexivity). discriminate Hm.
    - destruct pre' as [|e' pre'].
      + cbn in Hsplit. injection Hsplit as -> _.
        rewrite (Hno data') in Hm' by (left; reflexivity). discriminate Hm'.
      + cbn in Hsplit. injection Hsplit as -> Hsplit. f_equal.
        apply IH; [eapply no_ready_line_cons_inv; exact Hno | exact Hsplit |
                   eapply no_ready_line_cons_inv; exact Hno']. }
  subst pre'.
  destruct (await_started (pre ++ ChildStdout data :: post) w1)
    as [[u | r0 |] w2]; cbn [fst snd] in *; try discriminate Hres.
  injection Hres as ->.
  unfold v. cbn [postProcessInstanceUri]. rewrite Hps. cbn [fst snd].
  split; [reflexivity|]. split; [|split; [|split]].
  - intros Ha. unfold isRunning. rewrite (Hflag Ha). reflexivity.
  - rewrite Huri. subst w1. cbn. exact Huri0.
  - exact Hrest.
  - rewrite Heff. subst w1.
    cbn [effects spawned emit set_isInstanceRunnig set_hostedInstanceProcess
           with_this with_heap].
    rewrite <- !app_assoc. reflexivity.
Qed.

(** *** [run] and [getInstanceURI] *)

(** X12: What [run] returns is never [undefined], it is what the manager has
    cached, and it is what [getInstanceURI] returns afterwards as long as
    [isRunning()] is true. *)
Theorem getInstanceURI_returns_what_run_returned (v : Variant) (os : Os)
    (pluginUri : URI) (requested : option Z) (w : World) (x : option URI) :
  fst (run v os pluginUri requested w) = Fulfilled x ->
  let w' := snd (run v os pluginUri requested w) in
  (exists uri, x = Some uri)
  /\ instanceUri (this w') = x
  /\ (isRunning w' = true -> getInstanceURI w' = Normal x).
Proof.
  intros Hrun w'.
  destruct (run_fulfilled _ _ _ _ _ _ Hrun)
    as (_ & _ & args & w1 & started & w2 & uri & _ & _ & _ & _ & Hsnd & ->).
  assert (Huri : instanceUri (this w') = Some uri).
  { subst w'. rewrite Hsnd. unfold ensureUriAvailable.
    pose proof (poll_frame uri
                  (inbox (emit (SetTimeout 1000)
                     (emit (HttpGet (uri_toString uri))
                        (set_instanceUri uri w2))))
                  (Some 0%nat)
                  (emit (SetTimeout 1000)
                     (emit (HttpGet (uri_toString uri))
                        (set_instanceUri uri w2))))
      as (_ & _ & Hp).
    exact Hp. }
  split; [eauto|]. split; [exact Huri|].
  intros Hflag. unfold getInstanceURI. unfold isRunning in Hflag.
  rewrite Hflag, Huri. reflexivity.
Qed.

(** *** Counting the probes *)

Lemma unhandled_emit (e : Effect) (w : World) :
  unhandled (emit e w) = (unhandled w + (if is_unhandled e then 1 else 0))%nat.
Proof.
  unfold unhandled. cbn. rewrite List.filter_app, length_app. cbn.
  destruct (is_unhandled e); reflexivity.
Qed.

Lemma poll_counts (uri : URI) (events : list LoopEvent) (loop : option nat)
    (w : World) :
  let k := pauses (until_response events) in
  requests (snd (poll uri loop events w))
  = (requests w + match loop with Some i => Nat.min (9 - i) k | None => 0 end)%nat
  /\ unhandled (snd (poll uri loop events w))
     = (unhandled w
        + match loop with
          | Some i => if (9 - i <? k)%nat then 1 else 0
          | None => 0
          end)%nat.
Proof.
  revert loop w. induction events as [|e rest IH]; intros loop w.
  - cbn. destruct loop; unfold requests, unhandled; cbn;
      rewrite ?Nat.min_0_r; split; lia.
  - destruct e; cbn [poll until_response pauses].
    + apply IH.
    + apply (IH loop (set_isInstanceRunnig false w)).
    + apply (IH loop (set_isInstanceRunnig false w)).
    + apply IH.
    + destruct loop as [i|].
      * destruct (Nat.ltb_spec (S i) 10) as [Hlt|Hge].
        -- destruct (IH (Some (S i))
                       (emit (SetTimeout 1000)
                          (emit (HttpGet (uri_toString uri)) w)))
             as (Hr & Hu).
           cbv zeta in Hr, Hu |- *. rewrite Hr, Hu.
           rewrite !requests_emit, !unhandled_emit. cbn [is_get is_unhandled].
           split.
           ++ lia.
           ++ destruct (Nat.ltb_spec (9 - S i) (pauses (until_response rest)));
                destruct (Nat.ltb_spec (9 - i) (S (pauses (until_response rest))));
                lia.
        -- destruct (IH None
                       (emit (UnhandledRejection
                                (UnreachableEndpointError (uri_toString uri))) w))
             as (Hr & Hu).
           cbv zeta in Hr, Hu |- *. rewrite Hr, Hu.
           rewrite requests_emit, unhandled_emit. cbn [is_get is_unhandled].
           split.
           ++ lia.
           ++ destruct (Nat.ltb_spec (9 - i) (S (pauses (until_response rest))));
                lia.
      * apply (IH None w).
    + cbn. destruct loop; unfold requests, unhandled; cbn;
        rewrite ?Nat.min_0_r; split; lia.
Qed.

(** X13: The probe sends one request when it starts and one more each time a
    one-second pause ends, until a response arrives or ten requests have
    been sent: with [k] pauses elapsed before the first response, the
    number of requests is the smaller of [k + 1] and ten. The error for an
    unreachable endpoint is raised, unhandled, exactly when ten pauses
    have elapsed without a response, and at most once. *)
Theorem probe_sends_one_request_per_pause (uri : URI) (w : World) :
  let k := pauses (until_response (inbox w)) in
  requests (snd (ensureUriAvailable uri w))
  = (requests w + Nat.min 10 (S k))%nat
  /\ unhandled (snd (ensureUriAvailable uri w))
     = (unhandled w + (if (10 <=? k)%nat then 1 else 0))%nat.
Proof.
  intros k. unfold ensureUriAvailable. cbn [inbox emit].
  destruct (poll_counts uri (inbox w) (Some 0%nat)
              (emit (SetTimeout 1000) (emit (HttpGet (uri_toString uri)) w)))
    as (Hr & Hu).
  cbv zeta in Hr, Hu. fold k in Hr, Hu.
  change (poll uri (Some 0%nat) (inbox w)
            {| this := this w; process_env := process_env w;
               PROCESS_OPTIONS := PROCESS_OPTIONS w; heap := heap w;
               require_cache := require_cache w; probes := probes w;
               effects := ((effects w ++ [HttpGet (uri_toString uri)])
                           ++ [SetTimeout 1000])%list;
               inbox := inbox w |})
    with (poll uri (Some 0%nat) (inbox w)
            (emit (SetTimeout 1000) (emit (HttpGet (uri_toString uri)) w))).
  rewrite Hr, Hu. rewrite !requests_emit, !unhandled_emit.
  cbn [is_get is_unhandled]. split.
  - lia.
  - destruct (Nat.ltb_spec (9 - 0) k); destruct (Nat.leb_spec 10 k); lia.
Qed.

(** *** The module cache *)

(** X14: Once [isPluginValid] has loaded a manifest, it goes on giving the same
    answer for that location, whatever the file holds by then, as long as
    some file is there; and it changes nothing any more. Only when the file
    is gone is the answer false. *)
Theorem isPluginValid_answers_from_the_cache (os os' : Os) (uri : URI)
    (w : World) (v : json) :
  files os !! (uri_path uri +:+ "/package.json") = Some (JsonText v) ->
  require_cache w !! (uri_path uri +:+ "/package.json") = None ->
  v <> JNull ->
  let w1 := snd (isPluginValid os uri w) in
  (forall f,
     files os' !! (uri_path uri +:+ "/package.json") = Some f ->
     isPluginValid os' uri w1 = (fst (isPluginValid os uri w), w1))
  /\ (files os' !! (uri_path uri +:+ "/package.json") = None ->
      isPluginValid os' uri w1 = (Normal false, w1)).
Proof.
  intros Hfile Hcache Hnull w1. subst w1.
  rewrite (isPluginValid_loaded os uri w v Hfile Hcache Hnull).
  cbn [fst snd]. split.
  - intros f Hf. unfold isPluginValid, require. rewrite Hf.
    cbn [require_cache with_require_cache]. rewrite lookup_insert_eq.
    destruct v as [| | | | |props]; try reflexivity; [contradiction|].
    cbn [get_prop verdict].
    destruct (assoc "theiaPlugin" props) as [[| b | n | s0 | items |plugin]|];
      try reflexivity.
    + destruct b; reflexivity.
    + cbn. destruct (Z.eqb n 0); reflexivity.
    + cbn. destruct (String.eqb s0 ""); reflexivity.
    + cbn [truthy get_prop].
      destruct (truthy (assoc "frontend" plugin)); reflexivity.
  - intros Hnone. unfold isPluginValid. rewrite Hnone. reflexivity.
Qed.

End FurtherProperties.

(* ===================================================================== *)
(** ** Further properties: revealing a file in the navigator *)
(* ===================================================================== *)

Section NavigatorProperties.
Context {N : Navigator}.

Lemma is_root_same (t : Tree) (id : string) :
  is_root t id = true ->
  tree_root t = getNode t id /\ exists n, getNode t id = Some n.
Proof.
  unfold is_root.
  destruct (tree_root t) as [a|], (getNode t id) as [b|]; try discriminate.
  intros Hb. apply bool_decide_eq_true in Hb as ->. eauto.
Qed.

Lemma same_is_root (t : Tree) (id : string) (n : TreeNode) :
  tree_root t = getNode t id -> getNode t id = Some n -> is_root t id = true.
Proof.
  unfold is_root. intros -> ->. apply bool_decide_eq_true. reflexivity.
Qed.

Lemma revealFile_more_fuel (fuel more : nat) (u : NavUri) (t : Tree)
    (r : Settle (option TreeNode) * Tree) :
  revealFile fuel u t = Some r -> revealFile (fuel + more) u t = Some r.
Proof.
  revert u r. induction fuel as [|fuel IH]; intros u r; [discriminate|].
  cbn [revealFile Nat.add].
  destruct (decide (tree_root t = getNode t (nav_toString u))); [auto|].
  destruct (nav_isRoot u); [auto|].
  destruct (revealFile fuel (nav_parent u) t) as [r1|] eqn:Hparent;
    [|discriminate].
  rewrite (IH _ _ Hparent). auto.
Qed.

(** X17: [revealFile] terminates on every URI from which the parents lead to a
    URI whose path is the root, or to the root of the tree, and more fuel
    does not change what it does. *)
Theorem revealFile_terminates (fuel : nat) (u : NavUri) (t : Tree) :
  ends_within fuel u = true \/ under_root fuel u t = true ->
  exists r, revealFile fuel u t = Some r
            /\ forall more, revealFile (fuel + more) u t = Some r.
Proof.
  intros Hcase.
  assert (Hsome : is_Some (revealFile fuel u t)).
  { revert u Hcase. induction fuel as [|fuel IH]; intros u Hcase.
    - destruct Hcase as [Hc | Hc]; discriminate Hc.
    - cbn [revealFile].
      destruct (decide (tree_root t = getNode t (nav_toString u))) as [Heq|Hne].
      { destruct (getNode t (nav_toString u)) as [n|]; [|eauto].
        destruct (ExpandableTreeNode_is t n); eauto. }
      destruct (nav_isRoot u) eqn:Hroot; [eauto|].
      assert (Hparent : ends_within fuel (nav_parent u) = true
                        \/ under_root fuel (nav_parent u) t = true).
      { destruct Hcase as [Hc | Hc]; cbn [under_root ends_within] in Hc;
          rewrite Hroot in Hc; cbn [orb negb andb] in Hc.
        - left. exact Hc.
        - right. apply orb_true_iff in Hc as [Hc | Hc]; [|exact Hc].
          destruct (is_root_same t _ Hc) as (Hsame & _). contradiction. }
      destruct (IH (nav_parent u) Hparent) as (r & Hr).
      rewrite Hr.
      destruct r as [[[x|] | reason |] t1]; eauto.
      destruct (match getNode t (nav_toString u) with
                | Some n => Some n
                | None => getNode t1 (nav_toString u)
                end); eauto. }
  destruct Hsome as [r Hr]. exists r. split; [exact Hr|].
  intros more. apply revealFile_more_fuel. exact Hr.
Qed.

(** X18: For a URI that is not at or below the root of the tree, [revealFile]
    returns [undefined] and expands nothing: the tree is as it was. *)
Theorem revealFile_outside_workspace (fuel : nat) (u : NavUri) (t : Tree) :
  ends_within fuel u = true ->
  under_root fuel u t = false ->
  revealFile fuel u t = Some (Fulfilled None, t).
Proof.
  revert u. induction fuel as [|fuel IH]; intros u Hends Hout;
    [discriminate Hends|].
  cbn [under_root ends_within] in Hends, Hout.
  apply orb_false_iff in Hout as [Hhere Hup].
  cbn [revealFile].
  destruct (decide (tree_root t = getNode t (nav_toString u))) as [Heq|Hne].
  { destruct (getNode t (nav_toString u)) as [n|] eqn:Hn; [|reflexivity].
    rewrite (same_is_root t _ n) in Hhere;
      [discriminate Hhere | rewrite Hn; exact Heq | exact Hn]. }
  destruct (nav_isRoot u) eqn:Hroot; [reflexivity|].
  cbn [orb negb andb] in Hends, Hup.
  rewrite (IH (nav_parent u) Hends Hup). reflexivity.
Qed.

Lemma grows_refl (t : Tree) : grows t t.
Proof. unfold grows. auto. Qed.

Lemma grows_trans (t1 t2 t3 : Tree) : grows t1 t2 -> grows t2 t3 -> grows t1 t3.
Proof.
  unfold grows. intros (He & Hn & Hk) (He' & Hn' & Hk').
  repeat split; auto. intros m. rewrite Hk', Hk. reflexivity.
Qed.

Lemma grows_expandNode (laws : TreeLaws) (n : TreeNode) (t : Tree) :
  grows t (snd (expandNode n t)).
Proof.
  unfold grows. repeat split.
  - intros m. apply (expandNode_keeps_expanded laws).
  - intros id m. apply (expandNode_keeps_nodes laws).
  - intros m. apply (expandNode_keeps_kind laws).
Qed.

Lemma expand_and_return_grows (laws : TreeLaws) (n : TreeNode) (t : Tree) :
  grows t (snd (expand_and_return n t)).
Proof.
  unfold expand_and_return.
  destruct (ExpandableTreeNode_is t n && negb (expanded t n))%bool;
    [|apply grows_refl].
  pose proof (grows_expandNode laws n t) as Hg.
  destruct (expandNode n t) as [[[] | r |] t']; exact Hg.
Qed.

Lemma expand_and_return_fulfilled (laws : TreeLaws) (n : TreeNode) (t t' : Tree)
    (x : option TreeNode) :
  expand_and_return n t = (Fulfilled x, t') ->
  x = Some n
  /\ (ExpandableTreeNode_is t' n = true -> expanded t' n = true).
Proof.
  unfold expand_and_return.
  destruct (ExpandableTreeNode_is t n) eqn:Hkind; cbn [andb].
  - destruct (expanded t n) eqn:Hexp; cbn [negb].
    + intros [= <- <-]. auto.
    + destruct (expandNode n t) as [[[] | r |] t1] eqn:Hx; try discriminate.
      intros [= <- <-]. split; [reflexivity|]. intros _.
      apply (expandNode_expands laws n t). exact Hx.
  - intros [= <- <-]. split; [reflexivity|]. congruence.
Qed.

Lemma revealFile_grows (laws : TreeLaws) (fuel : nat) (u : NavUri)
    (t t' : Tree) (r : Settle (option TreeNode)) :
  revealFile fuel u t = Some (r, t') -> grows t t'.
Proof.
  revert u t' r. induction fuel as [|fuel IH]; intros u t' r; [discriminate|].
  cbn [revealFile].
  destruct (decide (tree_root t = getNode t (nav_toString u))) as [Heq|Hne].
  { destruct (getNode t (nav_toString u)) as [n|].
    - destruct (ExpandableTreeNode_is t n).
      + intros [= Hx]. pose proof (expand_and_return_grows laws n t) as Hg.
        rewrite Hx in Hg. exact Hg.
      + intros [= <- <-]. apply grows_refl.
    - intros [= <- <-]. apply grows_refl. }
  destruct (nav_isRoot u); [intros [= <- <-]; apply grows_refl|].
  destruct (revealFile fuel (nav_parent u) t) as [[[[x|] | reason |] t1]|]
    eqn:Hparent; try discriminate.
  - pose proof (IH _ _ _ Hparent) as Hg1.
    destruct (match getNode t (nav_toString u) with
              | Some n => Some n
              | None => getNode t1 (nav_toString u)
              end) as [n|].
    + intros [= Hx]. pose proof (expand_and_return_grows laws n t1) as Hg.
      rewrite Hx in Hg. eapply grows_trans; eassumption.
    + intros [= <- <-]. exact Hg1.
  - intros [= <- <-]. exact (IH _ _ _ Hparent).
  - intros [= <- <-]. exact (IH _ _ _ Hparent).
  - intros [= <- <-]. exact (IH _ _ _ Hparent).
Qed.

Lemma revealed_grows (t t' : Tree) (u : NavUri) :
  grows t t' -> revealed t u -> revealed t' u.
Proof.
  unfold grows, revealed. intros (He & Hn & Hk) (m & Hm & Hx).
  exists m. split; [apply Hn; exact Hm|].
  rewrite Hk. intros Hkind. apply He. apply Hx. exact Hkind.
Qed.

Lemma iter_parent (j : nat) (u : NavUri) :
  Nat.iter j nav_parent (nav_parent u) = Nat.iter (S j) nav_parent u.
Proof. symmetry. apply Nat.iter_succ_r. Qed.

(** X19: In a tree whose expansion leaves a node expanded, collapses nothing and
    keeps the mounted nodes: when [revealFile] returns a node, it is the
    node of the target; some ancestor of the target, or the target itself,
    is the root of the tree; and every URI from the target up to that root
    has a node in the tree afterwards, which is expanded if it can be. *)
Theorem revealFile_reveals_the_path (laws : TreeLaws) (fuel : nat)
    (u : NavUri) (t t' : Tree) (n : TreeNode) :
  revealFile fuel u t = Some (Fulfilled (Some n), t') ->
  getNode t' (nav_toString u) = Some n
  /\ exists k,
       (k < fuel)%nat
       /\ is_root t (nav_toString (Nat.iter k nav_parent u)) = true
       /\ forall j, (j <= k)%nat -> revealed t' (Nat.iter j nav_parent u).
Proof.
  revert u t' n. induction fuel as [|fuel IH]; intros u t' n; [discriminate|].
  cbn [revealFile].
  destruct (decide (tree_root t = getNode t (nav_toString u))) as [Heq|Hne].
  { destruct (getNode t (nav_toString u)) as [m|] eqn:Hm; [|discriminate].
    destruct (ExpandableTreeNode_is t m); [|discriminate].
    intros [= Hx].
    destruct (expand_and_return_fulfilled laws m t t' (Some n) Hx)
      as ([= ->] & Hexp).
    pose proof (expand_and_return_grows laws m t) as (_ & Hnodes & _).
    rewrite Hx in Hnodes. cbn [snd] in Hnodes.
    split; [apply Hnodes; exact Hm|].
    exists 0%nat. split; [lia|]. split.
    - change (Nat.iter 0 nav_parent u) with u.
      apply (same_is_root t _ m); [rewrite Hm|]; assumption.
    - intros j Hj. replace j with 0%nat by lia.
      change (Nat.iter 0 nav_parent u) with u.
      exists m. split; [apply Hnodes; exact Hm | exact Hexp]. }
  destruct (nav_isRoot u); [discriminate|].
  destruct (revealFile fuel (nav_parent u) t) as [[[[x|] | reason |] t1]|]
    eqn:Hparent; try discriminate.
  destruct (IH _ _ _ Hparent) as (_ & k & Hk & Hroot & Hpath).
  pose proof (revealFile_grows laws _ _ _ _ _ Hparent) as (_ & Hnodes1 & _).
  assert (Hnode : forall m,
            match getNode t (nav_toString u) with
            | Some n0 => Some n0
            | None => getNode t1 (nav_toString u)
            end = Some m ->
            getNode t1 (nav_toString u) = Some m).
  { intros m. destruct (getNode t (nav_toString u)) as [m0|] eqn:Hm0.
    - intros [= <-]. apply Hnodes1. exact Hm0.
    - auto. }
  destruct (match getNode t (nav_toString u) with
            | Some n0 => Some n0
            | None => getNode t1 (nav_toString u)
            end) as [m|]; [|discriminate].
  specialize (Hnode m eq_refl).
  intros [= Hx].
  destruct (expand_and_return_fulfilled laws m t1 t' (Some n) Hx)
    as ([= ->] & Hexp).
  pose proof (expand_and_return_grows laws m t1) as Hg.
  rewrite Hx in Hg. cbn [snd] in Hg.
  assert (Hhere : getNode t' (nav_toString u) = Some m)
    by (apply Hg; exact Hnode).
  split; [exact Hhere|].
  exists (S k). split; [lia|]. split.
  - rewrite <- iter_parent. exact Hroot.
  - intros [|j] Hj.
    + change (Nat.iter 0 nav_parent u) with u. exists m. auto.
    + rewrite <- iter_parent. apply (revealed_grows t1 t' _ Hg).
      apply Hpath. lia.
Qed.

End NavigatorProperties.

(* ===================================================================== *)
(** ** Further properties: what holds of every manager *)
(* ===================================================================== *)

Section ReachableManagers.
Context {P : Platform}.

Lemma after_spawn_handle (v : Variant) (w1 : World) :
  hostedInstanceProcess (this (snd
    ((let/a started := (fun w => await_started (inbox w) w) in
      let/a uri := postProcessInstanceUri v started in
      perform (set_instanceUri uri) ;;;
      ensureUriAvailable uri ;;;
      fun w => (Fulfilled (instanceUri (this w)), w)) w1)))
  = hostedInstanceProcess (this w1).
Proof.
  unfold await.
  pose proof (await_started_frame (inbox w1) w1) as (_ & Hs & _).
  destruct (await_started (inbox w1) w1) as [[started | r |] w2];
    cbn [fst snd] in *; try exact Hs.
  assert (Hpost : snd (postProcessInstanceUri v started w2) = w2)
    by (destruct v; reflexivity).
  destruct (postProcessInstanceUri v started w2) as [[uri | r |] w2'];
    cbn [fst snd] in *; subst w2'; try exact Hs.
  unfold perform, ensureUriAvailable.
  pose proof (poll_frame uri
                (inbox (emit (SetTimeout 1000)
                   (emit (HttpGet (uri_toString uri)) (set_instanceUri uri w2))))
                (Some 0%nat)
                (emit (SetTimeout 1000)
                   (emit (HttpGet (uri_toString uri)) (set_instanceUri uri w2))))
    as (_ & Hp & _).
  destruct (poll uri (Some 0%nat)
              (inbox (emit (SetTimeout 1000)
                 (emit (HttpGet (uri_toString uri)) (set_instanceUri uri w2))))
              (emit (SetTimeout 1000)
                 (emit (HttpGet (uri_toString uri)) (set_instanceUri uri w2))))
    as [[[] | r |] w4]; cbn [fst snd] in *; rewrite Hp; exact Hs.
Qed.

Lemma run_keeps_handle (v : Variant) (os : Os) (pluginUri : URI)
    (requested : option Z) (w : World) :
  handle_when_running w ->
  handle_when_running (snd (run v os pluginUri requested w)).
Proof.
  intros Hw.
  destruct (isRunning w) eqn:Hidle;
    [rewrite run_refused_running by exact Hidle; exact Hw|].
  destruct (String.eqb_spec (uri_scheme pluginUri) "file") as [Hfile|Hfile];
    [|rewrite run_refused_scheme by assumption; exact Hw].
  pose proof (getStartCommand_frame v os requested w)
    as (_ & _ & Hflag & Hhandle & _ & Hsettled & Hyarn).
  rewrite (run_unfold v os pluginUri requested w Hidle Hfile).
  rewrite prepared_with_heap. unfold await at 1.
  rewrite getStartCommand_heap.
  destruct (fst (getStartCommand v os requested w)) as [command | r |] eqn:Hcmd;
    [| |contradiction].
  - destruct (Hyarn command eq_refl) as [args ->].
    intros _.
    change (hostedInstanceProcess (this (snd
      ((let/a started := (fun w0 => await_started (inbox w0) w0) in
        let/a uri := postProcessInstanceUri v started in
        perform (set_instanceUri uri) ;;;
        ensureUriAvailable uri ;;;
        fun w0 => (Fulfilled (instanceUri (this w0)), w0))
         (spawned os "yarn" args (shallow_copy (PROCESS_OPTIONS w))
            (with_heap (heap (prepared pluginUri w))
               (snd (getStartCommand v os requested w))))))) <> None).
    rewrite after_spawn_handle. discriminate.
  - unfold handle_when_running, isRunning. cbn [snd this with_heap].
    rewrite Hflag. unfold isRunning in Hidle. rewrite Hidle. discriminate.
Qed.

Lemma call_keeps_handle (c : Call) (w : World) :
  handle_when_running w -> handle_when_running (call c w).
Proof.
  unfold handle_when_running, isRunning.
  destruct c as [os | | os uri | e]; cbn [call].
  - destruct (terminate_frame os w) as (-> & _). auto.
  - auto.
  - destruct (isPluginValid_frame os uri w) as (-> & _). auto.
  - unfold dispatch.
    destruct e, (hostedInstanceProcess (this w)); cbn; auto; discriminate.
Qed.

(** X15: Whatever has been done with a manager since the module was loaded,
    while [isRunning()] is true the manager holds the handle of a child.
    So [terminate] has two outcomes only: it throws the not-running error,
    or it looks up the process tree of that child, runs [kill] once and
    its promise is fulfilled; it never rejects. *)
Theorem terminate_throws_or_resolves (dir : string)
    (penv : gmap string string) (events : list LoopEvent)
    (steps : list Step) (os : Os) :
  let w := history steps (module_load dir penv events) in
  (isRunning w = false /\ terminate os w = (Throw NotRunningError, w))
  \/ (isRunning w = true
      /\ exists pid,
           hostedInstanceProcess (this w) = Some pid
           /\ terminate os w
              = (Normal (Fulfilled tt),
                 emit (SpawnSync "kill" ("SIGTERM" :: map PID (processTree os pid)))
                   (emit (PsTree pid) w))).
Proof.
  intros w.
  assert (Hkept : handle_when_running w).
  { subst w. unfold history.
    assert (Hload : handle_when_running (module_load dir penv events))
      by (intros Hx; discriminate Hx).
    revert Hload. generalize (module_load dir penv events).
    induction steps as [|st steps IH]; intros w Hw; [exact Hw|].
    cbn [fold_left]. apply IH.
    destruct st as [v os0 pluginUri requested evs | c]; cbn [step].
    - apply run_keeps_handle. exact Hw.
    - apply call_keeps_handle. exact Hw. }
  unfold terminate, isRunning in *. unfold handle_when_running, isRunning in Hkept.
  destruct (isInstanceRunnig (this w)) eqn:Hflag; [right | left; auto].
  split; [reflexivity|].
  destruct (hostedInstanceProcess (this w)) as [pid|];
    [|exfalso; apply Hkept; reflexivity].
  exists pid. auto.
Qed.

Lemma call_process_env (c : Call) (w : World) :
  process_env (call c w) = process_env w.
Proof.
  destruct c as [os | | os uri | e]; cbn [call].
  - unfold terminate. destruct (isInstanceRunnig (this w)); [|reflexivity].
    destruct (hostedInstanceProcess (this w)); reflexivity.
  - reflexivity.
  - unfold isPluginValid, require.
    destruct (files os !! (uri_path uri +:+ "/package.json")) as [f|];
      [|reflexivity].
    destruct (require_cache w !! (uri_path uri +:+ "/package.json"))
      as [c|]; [|destruct f as [c|]; [|reflexivity]];
      (destruct (get_prop (Some c) "theiaPlugin") as [plugin|]; [|reflexivity];
       destruct (truthy plugin); [|reflexivity];
       destruct (get_prop plugin "frontend") as [frontend|]; [|reflexivity];
       destruct (truthy frontend); [reflexivity|];
       destruct (get_prop plugin "backend"); reflexivity).
  - unfold dispatch. destruct e, (hostedInstanceProcess (this w)); reflexivity.
Qed.

Lemma run_process_env (v : Variant) (os : Os) (pluginUri : URI)
    (requested : option Z) (w : World) :
  process_env (snd (run v os pluginUri requested w)) = process_env w
  /\ cwd (PROCESS_OPTIONS (snd (run v os pluginUri requested w)))
     = cwd (PROCESS_OPTIONS w).
Proof.
  destruct (isRunning w) eqn:Hidle;
    [rewrite run_refused_running by exact Hidle; auto|].
  destruct (String.eqb_spec (uri_scheme pluginUri) "file") as [Hfile|Hfile];
    [|rewrite run_refused_scheme by assumption; auto].
  pose proof (run_module_state v os pluginUri requested w Hidle Hfile) as Hmod.
  unfold module_state in Hmod. injection Hmod as Henv Hopt _ _.
  rewrite Henv, Hopt. auto.
Qed.

(** X16: The environment the module writes to is its own copy: whatever is done
    with a manager, [process.env] of the IDE itself is as it was, and so is
    the working directory the children are started in. *)
Theorem process_env_is_never_written (steps : list Step) (w : World) :
  process_env (history steps w) = process_env w
  /\ cwd (PROCESS_OPTIONS (history steps w)) = cwd (PROCESS_OPTIONS w).
Proof.
  unfold history. revert w.
  induction steps as [|st steps IH]; intros w; [auto|].
  cbn [fold_left]. destruct (IH (step st w)) as (-> & ->).
  destruct st as [v os pluginUri requested evs | c]; cbn [step].
  - apply (run_process_env v os pluginUri requested (with_inbox evs w)).
  - rewrite call_process_env.
    destruct (call_frame c w) as (_ & -> & _). auto.
Qed.

End ReachableManagers.

(* ===================================================================== *)
(** ** The environment the launches share *)
(* ===================================================================== *)

Section SharedEnvironment.
Context {P : Platform}.

Lemma run_shared_env (v : Variant) (os : Os) (pluginUri : URI)
    (requested : option Z) (w : World) :
  isRunning w = false -> uri_scheme pluginUri = "file" ->
  let w' := snd (run v os pluginUri requested w) in
  PROCESS_OPTIONS w' = PROCESS_OPTIONS w
  /\ shared_env w'
     = <["THEIA_PLUGINS" := ""]>
         (<["HOSTED_PLUGIN" := uri_path pluginUri]> (shared_env w)).
Proof.
  intros Hidle Hfile w'.
  pose proof (run_module_state v os pluginUri requested w Hidle Hfile) as Hmod.
  fold w' in Hmod. unfold module_state in Hmod.
  injection Hmod as _ Hopt Hheap _. cbn in Hopt.
  split; [exact Hopt|].
  unfold shared_env. rewrite <- env_of_prepared. unfold env_of.
  rewrite Hopt, Hheap. reflexivity.
Qed.

Lemma replay_shared_env (calls : list Call) (w : World) :
  shared_env (replay calls w) = shared_env w.
Proof.
  unfold shared_env, env_of.
  destruct (replay_frame calls w) as (-> & -> & _). reflexivity.
Qed.

Lemma replay_spawns (calls : list Call) (w : World) :
  spawns (effects (replay calls w)) = spawns (effects w).
Proof.
  unfold replay. revert w.
  induction calls as [|c calls IH]; intros w; [reflexivity|].
  cbn [fold_left]. rewrite IH. apply call_spawns.
Qed.

(** Writing the empty [THEIA_PLUGINS] again changes nothing. *)
Lemma rewrite_THEIA_PLUGINS (path : string) (m : gmap string string) :
  m !! "THEIA_PLUGINS" = Some "" ->
  <["THEIA_PLUGINS" := ""]> (<["HOSTED_PLUGIN" := path]> m)
  = <["HOSTED_PLUGIN" := path]> m.
Proof.
  intros Hm. apply insert_id.
  rewrite lookup_insert_ne by discriminate. exact Hm.
Qed.

(** What one step does to the shared environment: nothing, or the two
    writes of a launch. *)
Lemma step_shared_env (st : Step) (w : World) :
  PROCESS_OPTIONS (step st w) = PROCESS_OPTIONS w
  /\ (shared_env (step st w) = shared_env w
      \/ exists path,
           shared_env (step st w)
           = <["THEIA_PLUGINS" := ""]> (<["HOSTED_PLUGIN" := path]> (shared_env w))).
Proof.
  destruct st as [v os pluginUri requested events | c]; cbn [step].
  - destruct (isRunning (with_inbox events w)) eqn:Hidle.
    { rewrite run_refused_running by exact Hidle. auto. }
    destruct (String.eqb_spec (uri_scheme pluginUri) "file") as [Hfile|Hfile];
      [|rewrite run_refused_scheme by assumption; auto].
    destruct (run_shared_env v os pluginUri requested (with_inbox events w)
                Hidle Hfile) as (Hopt & Henv).
    split; [exact Hopt|]. right. exists (uri_path pluginUri). exact Henv.
  - destruct (call_frame c w) as (Hh & Ho & _).
    split; [exact Ho|]. left. unfold shared_env, env_of. rewrite Hh, Ho.
    reflexivity.
Qed.

Lemma history_shared_env (steps : list Step) (w : World) :
  shared_env w !! "THEIA_PLUGINS" = Some "" ->
  is_Some (shared_env w !! "HOSTED_PLUGIN") ->
  let w' := history steps w in
  PROCESS_OPTIONS w' = PROCESS_OPTIONS w
  /\ shared_env w' !! "THEIA_PLUGINS" = Some ""
  /\ is_Some (shared_env w' !! "HOSTED_PLUGIN")
  /\ (forall k, k <> "HOSTED_PLUGIN" -> shared_env w' !! k = shared_env w !! k).
Proof.
  unfold history. revert w.
  induction steps as [|st steps IH]; intros w Hempty Hset; [cbn; auto|].
  cbn [fold_left].
  destruct (step_shared_env st w) as (Hopt & Hcase).
  assert (Hnext : shared_env (step st w) !! "THEIA_PLUGINS" = Some ""
                  /\ is_Some (shared_env (step st w) !! "HOSTED_PLUGIN")
                  /\ forall k, k <> "HOSTED_PLUGIN" ->
                       shared_env (step st w) !! k = shared_env w !! k).
  { destruct Hcase as [-> | [path ->]]; [auto|].
    rewrite rewrite_THEIA_PLUGINS by exact Hempty.
    split; [|split].
    - rewrite lookup_insert_ne by discriminate. exact Hempty.
    - rewrite lookup_insert_eq. eauto.
    - intros k Hk. apply lookup_insert_ne. congruence. }
  destruct Hnext as (Hempty' & Hset' & Hrest').
  destruct (IH (step st w) Hempty' Hset') as (Hopt'' & Hempty'' & Hset'' & Hrest'').
  split; [congruence|]. split; [exact Hempty''|]. split; [exact Hset''|].
  intros k Hk. rewrite Hrest'' by exact Hk. apply Hrest'. exact Hk.
Qed.

(** C10, as the code has it: the options [run] builds are a shallow copy of
    [PROCESS_OPTIONS], so their [env] is the very object
    [PROCESS_OPTIONS.env] refers to. After any [run] on an idle manager
    with a file location, however it ends, that shared object holds the
    [HOSTED_PLUGIN] and [THEIA_PLUGINS] values the call wrote, and no call
    of another method and no event changes it, so that the options copy of
    the next launch reads them when it is made. The next launch that gets
    past the guards writes both variables again before it spawns: its child
    is given the shared environment with that launch's own [HOSTED_PLUGIN]
    in the place of the earlier one, and so is the shared object from then
    on. Whatever is done with the manager afterwards, the options keep
    referring to the same object, [THEIA_PLUGINS] stays empty,
    [HOSTED_PLUGIN] stays set, and every other variable stays as this call
    left it. *)
Theorem launch_environment_is_shared (v : Variant) (os : Os) (pluginUri : URI)
    (port : option Z) (w : World) :
  isRunning w = false ->
  uri_scheme pluginUri = "file" ->
  let w' := snd (run v os pluginUri port w) in
  env (shallow_copy (PROCESS_OPTIONS w)) = env (PROCESS_OPTIONS w)
  /\ PROCESS_OPTIONS w' = PROCESS_OPTIONS w
  /\ shared_env w'
     = <["THEIA_PLUGINS" := ""]>
         (<["HOSTED_PLUGIN" := uri_path pluginUri]> (shared_env w))
  /\ (forall calls,
        let later := replay calls w' in
        let processOptions := shallow_copy (PROCESS_OPTIONS later) in
        env_of processOptions later = shared_env w'
        /\ env_of processOptions later !! "HOSTED_PLUGIN"
           = Some (uri_path pluginUri)
        /\ env_of processOptions later !! "THEIA_PLUGINS" = Some "")
  /\ (forall calls v2 os2 pluginUri2 port2 events command,
        let later := with_inbox events (replay calls w') in
        isRunning later = false ->
        uri_scheme pluginUri2 = "file" ->
        fst (getStartCommand v2 os2 port2 later) = Fulfilled command ->
        let w2 := snd (run v2 os2 pluginUri2 port2 later) in
        let env2 := <["HOSTED_PLUGIN" := uri_path pluginUri2]> (shared_env w') in
        spawns (effects w2)
        = (spawns (effects w')
           ++ [Spawn (hd "" command) (tl command) (cwd (PROCESS_OPTIONS w))
                 env2 (child_pid os2)])%list
        /\ shared_env w2 = env2)
  /\ (forall steps,
        let w2 := history steps w' in
        PROCESS_OPTIONS w2 = PROCESS_OPTIONS w
        /\ shared_env w2 !! "THEIA_PLUGINS" = Some ""
        /\ is_Some (shared_env w2 !! "HOSTED_PLUGIN")
        /\ (forall k, k <> "HOSTED_PLUGIN" ->
                      shared_env w2 !! k = shared_env w' !! k)).
Proof.
  intros Hidle Hfile w'.
  destruct (run_shared_env v os pluginUri port w Hidle Hfile) as (Hopt & Henv).
  fold w' in Hopt, Henv.
  assert (Hempty : shared_env w' !! "THEIA_PLUGINS" = Some "")
    by (rewrite Henv; apply lookup_insert_eq).
  assert (Hset : is_Some (shared_env w' !! "HOSTED_PLUGIN")).
  { rewrite Henv. rewrite lookup_insert_ne by discriminate.
    rewrite lookup_insert_eq. eauto. }
  split; [reflexivity|]. split; [exact Hopt|]. split; [exact Henv|].
  split; [|split].
  - intros calls later processOptions.
    assert (Hsame : env_of processOptions later = shared_env w')
      by (subst processOptions later; apply replay_shared_env).
    rewrite Hsame. split; [reflexivity|]. split; [|exact Hempty].
    rewrite Henv. rewrite lookup_insert_ne by discriminate.
    apply lookup_insert_eq.
  - intros calls v2 os2 pluginUri2 port2 events command later Hidle2 Hfile2
      Hcmd w2 env2.
    assert (Hlater : shared_env later = shared_env w'
                     /\ PROCESS_OPTIONS later = PROCESS_OPTIONS w
                     /\ spawns (effects later) = spawns (effects w')).
    { subst later. split; [|split].
      - exact (replay_shared_env calls w').
      - destruct (replay_frame calls w') as (_ & Ho & _).
        cbn [PROCESS_OPTIONS with_inbox]. congruence.
      - exact (replay_spawns calls w'). }
    destruct Hlater as (Hshared & Hopt2 & Hspawns).
    destruct (run_shared_env v2 os2 pluginUri2 port2 later Hidle2 Hfile2)
      as (_ & Henv2).
    fold w2 in Henv2. rewrite Hshared in Henv2.
    rewrite rewrite_THEIA_PLUGINS in Henv2 by exact Hempty.
    split; [|exact Henv2].
    subst w2.
    rewrite (proj2 (run_spawns v2 os2 pluginUri2 port2 later)
               command Hidle2 Hfile2 Hcmd).
    rewrite env_of_prepared. fold (shared_env later).
    rewrite Hshared, Hspawns, Hopt2.
    rewrite rewrite_THEIA_PLUGINS by exact Hempty. reflexivity.
  - intros steps w2.
    destruct (history_shared_env steps w' Hempty Hset)
      as (Ho & He & Hs & Hk).
    fold w2 in Ho, He, Hs, Hk.
    split; [congruence|]. auto.
Qed.

End SharedEnvironment.

Section ConcreteEnvironment.
#[local] Existing Instance Demo.platform.

Lemma launch_environment_is_shared_witness :
  let w' := snd (run ElectronNodeHostedPluginRunner (Demo.os true [] ∅)
                   Demo.plugin (Some 8080) (Demo.fresh [])) in
  let w2 := snd (run ElectronNodeHostedPluginRunner Demo.quiet_os
                   Demo.plugin_q None
                   (with_inbox [Demo.ready; HttpResponse]
                      (replay [CallGetInstanceURI] w'))) in
  env_of (shallow_copy (PROCESS_OPTIONS (replay [Deliver ChildExit] w')))
    (replay [Deliver ChildExit] w')
  = shared_env w'
  /\ (spawns (effects w2)
      = (spawns (effects w')
         ++ [Spawn "yarn" ["theia"; "start"] "/work"
               (<["HOSTED_PLUGIN" := "/home/q"]> (shared_env w')) 100])%list
      /\ shared_env w2 = <["HOSTED_PLUGIN" := "/home/q"]> (shared_env w'))
  /\ shared_env
       (history [Launch ElectronNodeHostedPluginRunner Demo.quiet_os
                   Demo.plugin_q None [Demo.ready; HttpResponse]] w')
     !! "THEIA_PLUGINS"
     = Some "".
Proof.
  intros w' w2.
  destruct (launch_environment_is_shared ElectronNodeHostedPluginRunner
              (Demo.os true [] ∅) Demo.plugin (Some 8080) (Demo.fresh [])
              eq_refl eq_refl) as (_ & _ & _ & Hcalls & Hnext & Hhistory).
  split; [|split].
  - exact (proj1 (Hcalls [Deliver ChildExit])).
  - exact (Hnext [CallGetInstanceURI] ElectronNodeHostedPluginRunner
             Demo.quiet_os Demo.plugin_q None [Demo.ready; HttpResponse]
             ["yarn"; "theia"; "start"] eq_refl eq_refl eq_refl).
  - exact (proj1 (proj2 (Hhistory
             [Launch ElectronNodeHostedPluginRunner Demo.quiet_os
                Demo.plugin_q None [Demo.ready; HttpResponse]]))).
Defined.

(** C10 as stated fails: the [HOSTED_PLUGIN] a launch writes is not
    inherited by the launches after it. The first launch is given
    [/home/p]; the second launch writes its own location before it spawns,
    so that its child is given [/home/q]; from then on the shared object
    holds [/home/q], and that is what the options copy of a third launch
    reads. *)
Lemma later_launch_overwrites_HOSTED_PLUGIN :
  let w1 := Demo.started in
  let w2 := snd (run ElectronNodeHostedPluginRunner Demo.quiet_os
                   Demo.plugin_q None
                   (with_inbox [Demo.ready; HttpResponse]
                      (dispatch ChildExit w1))) in
  let w3 := dispatch ChildExit w2 in
  shared_env w1 !! "HOSTED_PLUGIN" = Some "/home/p"
  /\ hosted_plugins (effects w2) = [Some "/home/p"; Some "/home/q"]
  /\ shared_env w2 !! "HOSTED_PLUGIN" = Some "/home/q"
  /\ isRunning w3 = false
  /\ env_of (shallow_copy (PROCESS_OPTIONS w3)) w3 !! "HOSTED_PLUGIN"
     = Some "/home/q".
Proof. vm_compute. repeat split. Qed.

End ConcreteEnvironment.

(* ===================================================================== *)
(** ** The further properties on concrete runs *)
(* ===================================================================== *)

Section ConcreteFurther.
#[local] Existing Instance Demo.platform.

Lemma THEIA_INSTANCE_REGEX_sound_witness :
  single_line "http://localhost:3030" = true
  /\ exists before after,
       "root INFO Theia app listening on http://localhost:3030. [] "
       = before +:+ "Theia app listening on " +:+ "http://localhost:3030"
         +:+ ". []" +:+ after.
Proof.
  apply (THEIA_INSTANCE_REGEX_sound
           "root INFO Theia app listening on http://localhost:3030. [] "
           "http://localhost:3030").
  reflexivity.
Defined.

Lemma THEIA_INSTANCE_REGEX_complete_witness :
  is_Some (THEIA_INSTANCE_REGEX_exec
             ("12:00 " +:+ "Theia app listening on " +:+ "http://[::1]:3030"
              +:+ ". []" +:+ " done")).
Proof.
  apply (THEIA_INSTANCE_REGEX_complete "12:00 " "http://[::1]:3030" " done").
  reflexivity.
Defined.

Lemma THEIA_INSTANCE_REGEX_captures_the_address_witness :
  THEIA_INSTANCE_REGEX_exec
    ("root INFO " +:+ "Theia app listening on " +:+ "http://localhost:3030"
     +:+ ". []" +:+ " ")
  = Some "http://localhost:3030".
Proof.
  apply (THEIA_INSTANCE_REGEX_captures_the_address
           "root INFO " "http://localhost:3030" " "); reflexivity.
Defined.

Lemma run_unsupported_location_witness :
  run ElectronNodeHostedPluginRunner Demo.quiet_os
    ("http://example.org/plugin" : @URI Demo.platform) None (Demo.fresh [])
  = (Rejected (UnsupportedLocationError "http://example.org/plugin"),
     Demo.fresh []).
Proof.
  apply (run_unsupported_location ElectronNodeHostedPluginRunner Demo.quiet_os
           ("http://example.org/plugin" : @URI Demo.platform) None
           (Demo.fresh [])).
  vm_compute. discriminate.
Defined.

Lemma validatePort_accepts_witness :
  fst (validatePort Demo.freed_at_retry 8080 (Demo.fresh [])) = Fulfilled tt
  /\ effects (snd (validatePort Demo.freed_at_retry 8080 (Demo.fresh [])))
     = [ServerListen 8080 "0.0.0.0"; SetTimeout 1000;
        ServerListen 8080 "0.0.0.0"; ServerClose].
Proof.
  destruct (validatePort_accepts Demo.freed_at_retry 8080 (Demo.fresh []))
    as (Hacc & _ & Hretry & _).
  split.
  - apply Hacc. split; [lia|]. right. reflexivity.
  - apply Hretry; [lia | reflexivity | reflexivity].
Defined.

Lemma start_command_of_base_class_witness :
  ["yarn"; "theia"; "start"; "--hostname=0.0.0.0"; "--port=8080"]
  = (["yarn"; "theia"; "start"]
     ++ hostname_flag (module_load "/work"
                         {[ "HOSTED_PLUGIN_HOSTNAME" := "0.0.0.0" ]} [])
     ++ port_flag (Some 8080))%list.
Proof.
  apply (start_command_of_base_class Demo.quiet_os (Some 8080)
           (module_load "/work" {[ "HOSTED_PLUGIN_HOSTNAME" := "0.0.0.0" ]} [])
           ["yarn"; "theia"; "start"; "--hostname=0.0.0.0"; "--port=8080"]).
  vm_compute. reflexivity.
Defined.

Lemma start_command_of_node_runner_witness :
  1 <= 3030 <= 65535
  /\ ["yarn"; "theia"; "start"; "--port=3030"]
     = (["yarn"; "theia"; "start"] ++ hostname_flag (Demo.fresh [])
        ++ ["--port=" +:+ pretty (3030 : Z)])%list
  /\ port (this (snd (getStartCommand (NodeHostedPluginRunner [])
                        Demo.quiet_os None (Demo.fresh []))))
     = Some 3030.
Proof.
  apply (proj2 (start_command_of_node_runner [] Demo.quiet_os None
                  (Demo.fresh []))
           ["yarn"; "theia"; "start"; "--port=3030"]).
  - right. reflexivity.
  - vm_compute. reflexivity.
Defined.

Lemma run_spawns_once_witness :
  spawns (effects (snd (run ElectronNodeHostedPluginRunner
                          (Demo.os true [] ∅) Demo.plugin (Some 8080)
                          (Demo.fresh []))))
  = spawns (effects (Demo.fresh []))
  /\ spawns (effects (snd (run ElectronNodeHostedPluginRunner Demo.quiet_os
                             Demo.plugin None
                             (Demo.fresh [Demo.ready; HttpResponse]))))
     = (spawns (effects (Demo.fresh [Demo.ready; HttpResponse]))
        ++ [Spawn "yarn" ["theia"; "start"] "/work"
              (env_of (PROCESS_OPTIONS (Demo.fresh []))
                 (prepared Demo.plugin (Demo.fresh [])))
              100])%list.
Proof.
  split.
  - apply (proj1 (run_spawns_once ElectronNodeHostedPluginRunner
                    (Demo.os true [] ∅) Demo.plugin (Some 8080)
                    (Demo.fresh []))).
    right. right. exists (PortInUseError 8080). vm_compute. reflexivity.
  - apply (proj2 (run_spawns_once ElectronNodeHostedPluginRunner Demo.quiet_os
                    Demo.plugin None (Demo.fresh [Demo.ready; HttpResponse]))
             ["yarn"; "theia"; "start"]);
      reflexivity.
Defined.

Lemma run_waits_for_the_start_timer_witness :
  let r := run ElectronNodeHostedPluginRunner Demo.quiet_os Demo.plugin None
             (Demo.fresh [ChildStdout "starting"; ChildExit]) in
  fst r = Pending /\ isRunning (snd r) = false.
Proof.
  destruct (run_waits_for_the_start_timer ElectronNodeHostedPluginRunner
              Demo.quiet_os Demo.plugin None
              (Demo.fresh [ChildStdout "starting"; ChildExit])
              ["yarn"; "theia"; "start"])
    as (Hres & _ & Hdead & _).
  - reflexivity.
  - reflexivity.
  - reflexivity.
  - intros data [Hd | [Hd | []]]; [|discriminate Hd].
    injection Hd as <-. reflexivity.
  - intros [Hd | [Hd | []]]; discriminate Hd.
  - split; [exact Hres|]. apply Hdead. left. right. left. reflexivity.
Defined.

Lemma run_rejects_with_the_post_processor_witness :
  let r := run (NodeHostedPluginRunner
                  [fun _ => Rejected (ErrorObj "no route")])
             Demo.quiet_os Demo.plugin None
             (Demo.fresh [Demo.ready; HttpResponse]) in
  fst r = Rejected (ErrorObj "no route")
  /\ isRunning (snd r) = true
  /\ inbox (snd r) = [HttpResponse].
Proof.
  destruct (run_rejects_with_the_post_processor
              [fun _ => Rejected (ErrorObj "no route")]
              Demo.quiet_os Demo.plugin None
              (Demo.fresh [Demo.ready; HttpResponse])
              ["yarn"; "theia"; "start"; "--port=3030"]
              [] [HttpResponse]
              "root INFO Theia app listening on http://localhost:3030. [] "
              "http://localhost:3030" (ErrorObj "no route"))
    as (Hres & Halive & _ & Hbox & _).
  - reflexivity.
  - reflexivity.
  - reflexivity.
  - reflexivity.
  - intros data [].
  - intros [].
  - reflexivity.
  - reflexivity.
  - split; [exact Hres|]. split; [|exact Hbox].
    apply Halive. split; intros [].
Defined.

Lemma getInstanceURI_returns_what_run_returned_witness :
  getInstanceURI Demo.started = Normal (Some "http://localhost:3030").
Proof.
  destruct (getInstanceURI_returns_what_run_returned
              ElectronNodeHostedPluginRunner Demo.quiet_os Demo.plugin None
              (Demo.fresh [Demo.ready; HttpResponse])
              (Some "http://localhost:3030"))
    as (_ & _ & Hget).
  - vm_compute. reflexivity.
  - apply Hget. vm_compute. reflexivity.
Defined.

Lemma isPluginValid_answers_from_the_cache_witness :
  let before := Demo.os false [] {[ Demo.manifest_path := JsonText Demo.backend_main ]} in
  let after := Demo.os false [] {[ Demo.manifest_path := JsonText (JObj []) ]} in
  let w1 := snd (isPluginValid before Demo.plugin (Demo.fresh [])) in
  isPluginValid after Demo.plugin w1
  = (fst (isPluginValid before Demo.plugin (Demo.fresh [])), w1).
Proof.
  intros before after w1.
  assert (Hmanifest : Demo.backend_main <> JNull)
    by (unfold Demo.backend_main; discriminate).
  apply (proj1 (isPluginValid_answers_from_the_cache before after Demo.plugin
                  (Demo.fresh []) Demo.backend_main
                  eq_refl eq_refl Hmanifest)
           (JsonText (JObj []))).
  reflexivity.
Defined.

End ConcreteFurther.

Lemma DemoTree_laws : @TreeLaws DemoTree.navigator.
Proof.
  split.
  - intros n t t' [= <-]. cbn. apply bool_decide_eq_true. left.
  - intros n t m. cbn. rewrite !bool_decide_eq_true. intros Hin. right. exact Hin.
  - intros n t id m. cbn. unfold DemoTree.mounted.
    destruct (String.eqb id "/home/ws"); [auto|]. cbn [orb].
    destruct (DemoTree.parent_of id) as [p|]; [|auto].
    intros Hm. destruct (decide (p ∈ t)) as [Hin|Hnin].
    + rewrite bool_decide_eq_true_2 by (right; exact Hin).
      rewrite bool_decide_eq_true_2 in Hm by exact Hin. exact Hm.
    + rewrite bool_decide_eq_false_2 in Hm by exact Hnin. discriminate Hm.
  - reflexivity.
Qed.

Section ConcreteNavigator.
#[local] Existing Instance DemoTree.navigator.

Lemma revealFile_terminates_witness :
  exists r, revealFile 6 DemoTree.file [] = Some r
            /\ forall more, revealFile (6 + more) DemoTree.file [] = Some r.
Proof.
  apply (revealFile_terminates 6 DemoTree.file []).
  left. reflexivity.
Defined.

Lemma revealFile_outside_workspace_witness :
  revealFile 3 DemoTree.elsewhere (["/home/ws"] : Tree)
  = Some (Fulfilled None, ["/home/ws"]).
Proof.
  apply (revealFile_outside_workspace 3 DemoTree.elsewhere ["/home/ws"]);
    reflexivity.
Defined.

Lemma revealFile_reveals_the_path_witness :
  getNode DemoTree.all_expanded (nav_toString DemoTree.file)
  = Some "/home/ws/a/b/f.txt"
  /\ exists k,
       (k < 6)%nat
       /\ is_root [] (nav_toString (Nat.iter k nav_parent DemoTree.file)) = true
       /\ forall j, (j <= k)%nat ->
            revealed DemoTree.all_expanded (Nat.iter j nav_parent DemoTree.file).
Proof.
  apply (revealFile_reveals_the_path DemoTree_laws 6 DemoTree.file []
           DemoTree.all_expanded "/home/ws/a/b/f.txt").
  reflexivity.
Defined.

End ConcreteNavigator.
